(** * TestKeeper: an in-process ZooKeeper emulator

    Shallow embedding of [dbms/src/Common/ZooKeeper/TestKeeper.cpp].

    - The container ([std::map<String, Node>]) and the two watch registries
      are finite maps keyed by path.
    - A [process] method mutates its container argument in place and either
      returns a response or throws; it is embedded as a function returning
      the container as the method leaves it, paired with an [Outcome].
    - User callbacks ([std::function] objects) are opaque identifiers that
      return normally; every invocation is appended to an event log.
    - The mutator thread, the submitters and [finalize] are embedded as
      atomic steps on a session record; the mutex-protected regions are the
      atomic parts of those steps. *)

From Stdlib Require Import ZArith String Ascii List Lia Permutation.
From stdpp Require Import base gmap strings list fin_maps.

Local Open Scope string_scope.
Local Open Scope list_scope.
Local Open Scope Z_scope.

(** ** Error codes and thrown conditions *)

Inductive Error :=
| ZOK
| ZNONODE
| ZNODEEXISTS
| ZNOCHILDRENFOREPHEMERALS
| ZBADVERSION
| ZNOTEMPTY
| ZBADARGUMENTS
| ZSESSIONEXPIRED
| ZOPERATIONTIMEOUT.

#[global] Instance Error_eq_dec : EqDecision Error.
Proof. solve_decision. Defined.

(** What a C++ function can throw here: a [Coordination::Exception] carrying
    an error code, or the [std::out_of_range] of [std::map::at]. *)
Inductive Thrown :=
| Exception (code : Error)
| out_of_range.

Inductive Outcome (A : Type) :=
| Returned (a : A)
| Threw (e : Thrown).
Arguments Returned {A} a.
Arguments Threw {A} e.

(** ** Machine integers *)

Definition wrap_int32 (z : Z) : Z := (z + 2^31) mod 2^32 - 2^31.
Definition wrap_int64 (z : Z) : Z := (z + 2^63) mod 2^64 - 2^63.

(** ** Path utilities *)

(** [std::string::rfind(c)]: position of the last occurrence, [None] for
    [npos]. *)
Fixpoint rfind (c : ascii) (s : string) : option nat :=
  match s with
  | EmptyString => None
  | String a rest =>
      match rfind c rest with
      | Some p => Some (S p)
      | None => if Ascii.eqb a c then Some O else None
      end
  end.

(** [npos] is the largest [size_t], so [rslash_pos > 0] holds for it and
    [substr(0, npos)] is the whole string. *)
Definition parentPath (path : string) : string :=
  match rfind "/" path with
  | Some O => "/"
  | Some (S p) => substring 0 (S p) path
  | None => path
  end.

(** [npos + 1] wraps to 0, so a path without a slash is its own base name. *)
Definition baseName (path : string) : string :=
  match rfind "/" path with
  | Some p => substring (S p) (String.length path - S p) path
  | None => path
  end.

(** ** Node records and the container *)

(** Modelled from the spec: the [Stat] record is declared in a header that is
    not part of the sources at hand; the spec lists its fields and gives no
    widths, so the counters are integers. *)
Module Stat.
Record t := mk {
  czxid : Z;
  mzxid : Z;
  ctime : Z;
  mtime : Z;
  version : Z;
  cversion : Z;
  numChildren : Z;
  dataLength : Z
}.
End Stat.
Abbreviation Stat := Stat.t.

(** A [Stat] no branch has assigned to. *)
Definition Stat0 : Stat := Stat.mk 0 0 0 0 0 0 0 0.

(** Modelled from the spec: [TestKeeper::Node] is declared in the same
    missing header; [seq_num] is a 32-bit counter, a fresh node has a zeroed
    [stat] and cleared flags. *)
Module Node.
Record t := mk {
  data : string;
  is_ephemeral : bool;
  is_sequental : bool;
  stat : Stat;
  seq_num : Z
}.
End Node.
Abbreviation Node := Node.t.

Definition Node0 : Node := Node.mk EmptyString false false Stat0 0.

Abbreviation Container := (gmap string Node).

Definition set_stat (f : Stat -> Stat) (n : Node) : Node :=
  Node.mk (Node.data n) (Node.is_ephemeral n) (Node.is_sequental n)
          (f (Node.stat n)) (Node.seq_num n).

Definition inc_cversion (s : Stat) : Stat :=
  Stat.mk (Stat.czxid s) (Stat.mzxid s) (Stat.ctime s) (Stat.mtime s)
          (Stat.version s) (Stat.cversion s + 1)
          (Stat.numChildren s) (Stat.dataLength s).

Definition inc_numChildren (s : Stat) : Stat :=
  Stat.mk (Stat.czxid s) (Stat.mzxid s) (Stat.ctime s) (Stat.mtime s)
          (Stat.version s) (Stat.cversion s)
          (Stat.numChildren s + 1) (Stat.dataLength s).

Definition dec_numChildren (s : Stat) : Stat :=
  Stat.mk (Stat.czxid s) (Stat.mzxid s) (Stat.ctime s) (Stat.mtime s)
          (Stat.version s) (Stat.cversion s)
          (Stat.numChildren s - 1) (Stat.dataLength s).

Definition inc_seq_num (n : Node) : Node :=
  Node.mk (Node.data n) (Node.is_ephemeral n) (Node.is_sequental n)
          (Node.stat n) (wrap_int32 (Node.seq_num n + 1)).

(** [std::map::emplace]: inserts only when the key is absent. *)
Definition emplace (k : string) (n : Node) (c : Container) : Container :=
  match c !! k with
  | Some _ => c
  | None => <[k := n]> c
  end.

(** ** Formatting of sequence numbers *)

Definition digit (d : Z) : ascii := ascii_of_nat (48 + Z.to_nat d).

(** Decimal digits of a non-negative integer, most significant first. *)
Fixpoint digits_of (fuel : nat) (n : Z) : list ascii :=
  match fuel with
  | O => []
  | S f =>
      if n <? 10 then [digit n]
      else digits_of f (n / 10) ++ [digit (n mod 10)]
  end.

(** [operator<<] on a signed integer: a minus sign, then the magnitude. *)
Definition print_int (n : Z) : list ascii :=
  if n <? 0 then "-"%char :: digits_of 20 (- n) else digits_of 20 n.

(** [std::setw(w) << std::setfill(c)]: a minimum width, padded on the left. *)
Definition setw_setfill (w : nat) (c : ascii) (s : list ascii) : list ascii :=
  repeat c (w - length s)%nat ++ s.

Definition seq_num_str (seq : Z) : string :=
  string_of_list_ascii (setw_setfill 10 "0"%char (print_int seq)).

(** ** Iteration order of [std::map] *)

(** Entries in ascending key order ([std::string::compare], bytewise). *)
Fixpoint insert_sorted {A} (e : string * A) (l : list (string * A))
    : list (string * A) :=
  match l with
  | [] => [e]
  | x :: rest =>
      if String.leb (fst e) (fst x) then e :: l else x :: insert_sorted e rest
  end.

Definition ordered_entries {A} (m : gmap string A) : list (string * A) :=
  foldr insert_sorted [] (map_to_list m).

(** ** Requests and responses *)

(** The request kinds of the client interface.  [TestKeeperMultiRequest]
    discriminates them with [dynamic_cast]; here they are a tagged sum. *)
#[warning="-register-all"]
Inductive Request :=
| CreateRequest (path data : string) (is_ephemeral is_sequential : bool)
| RemoveRequest (path : string) (version : Z)
| ExistsRequest (path : string)
| GetRequest (path : string)
| SetRequest (path data : string) (version : Z)
| ListRequest (path : string)
| CheckRequest (path : string) (version : Z)
| MultiRequest (requests : list Request).

#[warning="-register-all"]
Inductive Response :=
| CreateResponse (error : Error) (path_created : string)
| RemoveResponse (error : Error)
| ExistsResponse (error : Error) (stat : Stat)
| GetResponse (error : Error) (stat : Stat) (data : string)
| SetResponse (error : Error) (stat : Stat)
| ListResponse (error : Error) (stat : Stat) (names : list string)
| CheckResponse (error : Error)
| MultiResponse (error : Error) (responses : list Response).

Definition error (r : Response) : Error :=
  match r with
  | CreateResponse e _ | RemoveResponse e | ExistsResponse e _
  | GetResponse e _ _ | SetResponse e _ | ListResponse e _ _
  | CheckResponse e | MultiResponse e _ => e
  end.

(** Modelled from the spec: [getPath] is declared with the client
    interface, outside the sources at hand; it is the path the request
    carries, and a multi-request carries none. *)
Definition getPath (r : Request) : string :=
  match r with
  | CreateRequest p _ _ _ | RemoveRequest p _ | ExistsRequest p
  | GetRequest p | SetRequest p _ _ | ListRequest p | CheckRequest p _ => p
  | MultiRequest _ => EmptyString
  end.

(** ** The mutation engine *)

Section Process.

(** The transaction id of the request and the wall clock reading
    ([system_clock::now()] in milliseconds). *)
Variables (zxid now : Z).

Definition processCreate (path data : string) (is_ephemeral is_sequential : bool)
    (container : Container) : Container * Outcome Response :=
  match container !! path with
  | Some _ => (container, Returned (CreateResponse ZNODEEXISTS EmptyString))
  | None =>
      match container !! parentPath path with
      | None => (container, Returned (CreateResponse ZNONODE EmptyString))
      | Some it =>
          if Node.is_ephemeral it
          then (container, Returned (CreateResponse ZNOCHILDRENFOREPHEMERALS EmptyString))
          else
            let created_node :=
              Node.mk data is_ephemeral is_sequential
                      (Stat.mk zxid zxid now now 0 0 0
                               (Z.of_nat (String.length data)))
                      0 in
            let '(path_created, container) :=
              if is_sequential
              then (path +:+ seq_num_str (Node.seq_num it),
                    alter inc_seq_num (parentPath path) container)
              else (path, container) in
            let container := emplace path_created created_node container in
            let container :=
              alter (set_stat inc_cversion) (parentPath path) container in
            let container :=
              alter (set_stat inc_numChildren) (parentPath path) container in
            (container, Returned (CreateResponse ZOK path_created))
      end
  end.

Definition processRemove (path : string) (version : Z)
    (container : Container) : Container * Outcome Response :=
  match container !! path with
  | None => (container, Returned (RemoveResponse ZNONODE))
  | Some it =>
      if bool_decide (version ≠ -1) && bool_decide (version ≠ Stat.version (Node.stat it))
      then (container, Returned (RemoveResponse ZBADVERSION))
      else if bool_decide (Stat.numChildren (Node.stat it) ≠ 0)
      then (container, Returned (RemoveResponse ZNOTEMPTY))
      else
        let container := delete path container in
        match container !! parentPath path with
        | None => (container, Threw out_of_range)
        | Some _ =>
            let container :=
              alter (set_stat dec_numChildren) (parentPath path) container in
            let container :=
              alter (set_stat inc_cversion) (parentPath path) container in
            (container, Returned (RemoveResponse ZOK))
        end
  end.

Definition processExists (path : string)
    (container : Container) : Container * Outcome Response :=
  match container !! path with
  | Some it => (container, Returned (ExistsResponse ZOK (Node.stat it)))
  | None => (container, Returned (ExistsResponse ZNONODE Stat0))
  end.

Definition processGet (path : string)
    (container : Container) : Container * Outcome Response :=
  match container !! path with
  | None => (container, Returned (GetResponse ZNONODE Stat0 EmptyString))
  | Some it => (container, Returned (GetResponse ZOK (Node.stat it) (Node.data it)))
  end.

(** The assignments of the success branch, in the order of the source. *)
Definition set_node (data : string) (n : Node) : Node :=
  let s := Node.stat n in
  Node.mk data (Node.is_ephemeral n) (Node.is_sequental n)
          (Stat.mk (Stat.czxid s) zxid (Stat.ctime s) now (Stat.version s + 1)
                   (Stat.cversion s) (Stat.numChildren s) (Stat.dataLength s))
          (Node.seq_num n).

Definition processSet (path data : string) (version : Z)
    (container : Container) : Container * Outcome Response :=
  match container !! path with
  | None => (container, Returned (SetResponse ZNONODE Stat0))
  | Some it =>
      if bool_decide (version = -1) || bool_decide (version = Stat.version (Node.stat it))
      then
        let container := alter (set_node data) path container in
        match container !! parentPath path with
        | None => (container, Threw out_of_range)
        | Some _ =>
            let container :=
              alter (set_stat inc_cversion) (parentPath path) container in
            (* [it] still points at the entry under [path] *)
            let stat := from_option Node.stat Stat0 (container !! path) in
            (container, Returned (SetResponse ZOK stat))
        end
      else (container, Returned (SetResponse ZBADVERSION Stat0))
  end.

Definition startsWith (s prefix : string) : bool := String.prefix prefix s.

Fixpoint take_while {A} (f : A -> bool) (l : list A) : list A :=
  match l with
  | [] => []
  | x :: rest => if f x then x :: take_while f rest else []
  end.

Fixpoint drop_while {A} (f : A -> bool) (l : list A) : list A :=
  match l with
  | [] => []
  | x :: rest => if f x then drop_while f rest else l
  end.

Definition back (s : string) : option ascii := last (list_ascii_of_string s).

Definition processList (path : string)
    (container : Container) : Container * Outcome Response :=
  match container !! path with
  | None => (container, Returned (ListResponse ZNONODE Stat0 []))
  | Some it =>
      match back path with
      | None => (container, Threw (Exception ZSESSIONEXPIRED))
      | Some c =>
          let path_prefix :=
            if Ascii.eqb c "/"%char then path else path +:+ "/" in
          let from_upper_bound :=
            drop_while (fun k => String.leb k path_prefix)
                       (map fst (ordered_entries container)) in
          let walked :=
            take_while (fun k => startsWith k path_prefix) from_upper_bound in
          let names :=
            map baseName
                (filter (fun k => parentPath k = path) walked) in
          (container, Returned (ListResponse ZOK (Node.stat it) names))
      end
  end.

Definition processCheck (path : string) (version : Z)
    (container : Container) : Container * Outcome Response :=
  match container !! path with
  | None => (container, Returned (CheckResponse ZNONODE))
  | Some it =>
      if bool_decide (version ≠ -1) && bool_decide (version ≠ Stat.version (Node.stat it))
      then (container, Returned (CheckResponse ZBADVERSION))
      else (container, Returned (CheckResponse ZOK))
  end.

(** [process], dispatched on the request kind.  For a multi-request the
    inner loop walks the sub-requests; [container_copy] is the snapshot that
    both the early return and the [catch (...)] handler assign back. *)
Fixpoint process (request : Request) (container : Container)
    : Container * Outcome Response :=
  match request with
  | CreateRequest path data is_ephemeral is_sequential =>
      processCreate path data is_ephemeral is_sequential container
  | RemoveRequest path version => processRemove path version container
  | ExistsRequest path => processExists path container
  | GetRequest path => processGet path container
  | SetRequest path data version => processSet path data version container
  | ListRequest path => processList path container
  | CheckRequest path version => processCheck path version container
  | MultiRequest requests =>
      let container_copy := container in
      (fix loop (requests : list Request) (container : Container)
           (responses : list Response) {struct requests}
           : Container * Outcome Response :=
         match requests with
         | [] => (container, Returned (MultiResponse ZOK responses))
         | request :: rest =>
             match process request container with
             | (_, Threw e) => (container_copy, Threw e)
             | (container, Returned cur_response) =>
                 let responses := responses ++ [cur_response] in
                 if bool_decide (error cur_response ≠ ZOK)
                 then (container_copy,
                       Returned (MultiResponse (error cur_response) responses))
                 else loop rest container responses
             end
         end) requests container []
  end.

(** The loop of [TestKeeperMultiRequest::process] on its own. *)
Definition multi_loop (container_copy : Container)
    : list Request -> Container -> list Response -> Container * Outcome Response :=
  fix loop (requests : list Request) (container : Container)
      (responses : list Response) {struct requests} :=
    match requests with
    | [] => (container, Returned (MultiResponse ZOK responses))
    | request :: rest =>
        match process request container with
        | (_, Threw e) => (container_copy, Threw e)
        | (container, Returned cur_response) =>
            let responses := responses ++ [cur_response] in
            if bool_decide (error cur_response ≠ ZOK)
            then (container_copy,
                  Returned (MultiResponse (error cur_response) responses))
            else loop rest container responses
        end
    end.

(** Sequential application of a run of sub-requests that all answer [ZOK]:
    the container they leave and their responses; [None] as soon as one of
    them fails or throws. *)
Fixpoint apply_all_ok (requests : list Request) (container : Container)
    : option (Container * list Response) :=
  match requests with
  | [] => Some (container, [])
  | request :: rest =>
      match process request container with
      | (container, Returned response) =>
          if bool_decide (error response = ZOK)
          then match apply_all_ok rest container with
               | Some (container, responses) =>
                   Some (container, response :: responses)
               | None => None
               end
          else None
      | (_, Threw _) => None
      end
  end.

End Process.

(** The constructor of [TestKeeperMultiRequest]: every sub-request must be a
    create, remove, set or check. *)
Fixpoint TestKeeperMultiRequest (generic_requests : list Request)
    : Outcome (list Request) :=
  match generic_requests with
  | [] => Returned []
  | generic_request :: rest =>
      match generic_request with
      | CreateRequest _ _ _ _ | RemoveRequest _ _
      | SetRequest _ _ _ | CheckRequest _ _ =>
          match TestKeeperMultiRequest rest with
          | Returned requests => Returned (generic_request :: requests)
          | Threw e => Threw e
          end
      | _ => Threw (Exception ZBADARGUMENTS)
      end
  end.

(** ** The spec's rendering of a sequence number *)




(** ** Callbacks, watch responses and the event log *)

(** A user callback is an opaque identifier; an empty [std::function] is
    [None]. *)
Definition CallbackId := nat.
Abbreviation WatchCallback := (option CallbackId).
Abbreviation ResponseCallback := (option CallbackId).
Abbreviation Watches := (gmap string (list (option CallbackId))).

Inductive WatchType := TYPE_UNSET | SESSION.
Inductive WatchState := STATE_UNSET | EXPIRED_SESSION.

(** Modelled from the spec: [WatchResponse] is declared in the client
    interface header; its fields are [{type, state, path, error}], unset by
    default. *)
Module WatchResponse.
Record t := mk {
  type : WatchType;
  state : WatchState;
  path : string;
  error : Error
}.
End WatchResponse.
Abbreviation WatchResponse := WatchResponse.t.

Inductive Call :=
| WatchCall (callback : CallbackId) (response : WatchResponse)
| ResponseCall (callback : CallbackId) (response : Response).

(** One invocation of a user callback, with the two registries as they are
    at the moment of the call. *)
Record Invocation := mkInvocation {
  call : Call;
  watches_then : Watches;
  list_watches_then : Watches
}.

Abbreviation Log := (list Invocation).

Definition invoke (c : Call) (watches list_watches : Watches) (log : Log) : Log :=
  log ++ [mkInvocation c watches list_watches].

(** [for (auto & callback : ...) if (callback) callback(response);] *)
Definition invoke_all (callbacks : list WatchCallback) (response : WatchResponse)
    (watches list_watches : Watches) (log : Log) : Log :=
  foldl (fun log callback =>
           match callback with
           | Some f => invoke (WatchCall f response) watches list_watches log
           | None => log
           end) log callbacks.

(** ** Watch delivery *)

Definition processWatchesImpl (path : string) (watches list_watches : Watches)
    (log : Log) : Watches * Watches * Log :=
  let watch_response := WatchResponse.mk TYPE_UNSET STATE_UNSET path ZOK in
  let '(watches, log) :=
    match watches !! path with
    | Some it =>
        let log := invoke_all it watch_response watches list_watches log in
        (delete path watches, log)
    | None => (watches, log)
    end in
  let watch_list_response :=
    WatchResponse.mk TYPE_UNSET STATE_UNSET (parentPath path) ZOK in
  let '(list_watches, log) :=
    match list_watches !! parentPath path with
    | Some it =>
        let log := invoke_all it watch_list_response watches list_watches log in
        (delete (parentPath path) list_watches, log)
    | None => (list_watches, log)
    end in
  (watches, list_watches, log).

(** [processWatches]: the default does nothing; create, remove and set
    deliver for their own path; a multi-request delivers for each of its
    sub-requests in order. *)
Fixpoint processWatches (request : Request) (watches list_watches : Watches)
    (log : Log) : Watches * Watches * Log :=
  match request with
  | CreateRequest path _ _ _ | RemoveRequest path _ | SetRequest path _ _ =>
      processWatchesImpl path watches list_watches log
  | MultiRequest requests =>
      (fix each (requests : list Request) (watches list_watches : Watches)
           (log : Log) {struct requests} :=
         match requests with
         | [] => (watches, list_watches, log)
         | generic_request :: rest =>
             let '(watches, list_watches, log) :=
               processWatches generic_request watches list_watches log in
             each rest watches list_watches log
         end) requests watches list_watches log
  | ExistsRequest _ | GetRequest _ | ListRequest _ | CheckRequest _ _ =>
      (watches, list_watches, log)
  end.

(** ** Root prefix *)

(** Modelled from the spec: [addRootPath] is defined with the client
    interface, outside the sources at hand.  The root prefix is prepended to
    every path of the request. *)
Fixpoint addRootPath (root_path : string) (request : Request) : Request :=
  match request with
  | CreateRequest path data is_ephemeral is_sequential =>
      CreateRequest (root_path +:+ path) data is_ephemeral is_sequential
  | RemoveRequest path version => RemoveRequest (root_path +:+ path) version
  | ExistsRequest path => ExistsRequest (root_path +:+ path)
  | GetRequest path => GetRequest (root_path +:+ path)
  | SetRequest path data version => SetRequest (root_path +:+ path) data version
  | ListRequest path => ListRequest (root_path +:+ path)
  | CheckRequest path version => CheckRequest (root_path +:+ path) version
  | MultiRequest requests => MultiRequest (map (addRootPath root_path) requests)
  end.

(** Modelled from the spec: [removeRootPath] is defined with the client
    interface as well.  The root prefix is stripped from every path of the
    response. *)
Fixpoint removeRootPath (root_path : string) (response : Response) : Response :=
  match response with
  | CreateResponse e path_created =>
      CreateResponse e
        (substring (String.length root_path)
                   (String.length path_created - String.length root_path)
                   path_created)
  | MultiResponse e responses =>
      MultiResponse e (map (removeRootPath root_path) responses)
  | _ => response
  end.

(** ** The session *)

(** A queued envelope; the submission time is not modelled. *)
Module RequestInfo.
Record t := mk {
  request : Request;
  callback : ResponseCallback;
  watch : WatchCallback
}.
End RequestInfo.
Abbreviation RequestInfo := RequestInfo.t.

(** The members of [TestKeeper].  [queue_capacity] is the bound the queue is
    constructed with (fixed in the missing header, a parameter here); [log]
    is the history of callback invocations. *)
Record TestKeeper := mkTestKeeper {
  root_path : string;
  queue_capacity : nat;
  container : Container;
  zxid : Z;
  watches : Watches;
  list_watches : Watches;
  requests_queue : list RequestInfo;
  expired : bool;
  log : Log
}.

Definition pop_back (s : string) : string :=
  substring 0 (String.length s - 1) s.

(** The constructor: the container holds the root, a trailing slash of the
    root prefix is dropped. *)
Definition TestKeeper_new (root_path_ : string) (capacity : nat) : TestKeeper :=
  let root_path :=
    match back root_path_ with
    | Some c => if Ascii.eqb c "/"%char then pop_back root_path_ else root_path_
    | None => root_path_
    end in
  mkTestKeeper root_path capacity (emplace "/" Node0 ∅) 0 ∅ ∅ [] false [].

Definition createResponse (request : Request) : Response :=
  match request with
  | CreateRequest _ _ _ _ => CreateResponse ZOK EmptyString
  | RemoveRequest _ _ => RemoveResponse ZOK
  | ExistsRequest _ => ExistsResponse ZOK Stat0
  | GetRequest _ => GetResponse ZOK Stat0 EmptyString
  | SetRequest _ _ _ => SetResponse ZOK Stat0
  | ListRequest _ => ListResponse ZOK Stat0 []
  | CheckRequest _ _ => CheckResponse ZOK
  | MultiRequest _ => MultiResponse ZOK []
  end.

Definition set_error (e : Error) (response : Response) : Response :=
  match response with
  | CreateResponse _ p => CreateResponse e p
  | RemoveResponse _ => RemoveResponse e
  | ExistsResponse _ s => ExistsResponse e s
  | GetResponse _ s d => GetResponse e s d
  | SetResponse _ s => SetResponse e s
  | ListResponse _ s n => ListResponse e s n
  | CheckResponse _ => CheckResponse e
  | MultiResponse _ rs => MultiResponse e rs
  end.

Definition session_expired : WatchResponse :=
  WatchResponse.mk SESSION EXPIRED_SESSION EmptyString ZSESSIONEXPIRED.

(** The first loop of [finalize]: every callback of [watches], entry by
    entry. *)
Definition expire_watches (watches list_watches : Watches) (log : Log) : Log :=
  foldl (fun log path_watch =>
           invoke_all (snd path_watch) session_expired watches list_watches log)
        log (ordered_entries watches).

(** The body of the drain loop of [finalize] for one envelope. *)
Definition drain_one (watches list_watches : Watches) (log : Log)
    (info : RequestInfo) : Log :=
  let log :=
    match RequestInfo.callback info with
    | Some f =>
        let response :=
          set_error ZSESSIONEXPIRED (createResponse (RequestInfo.request info)) in
        invoke (ResponseCall f response) watches list_watches log
    | None => log
    end in
  match RequestInfo.watch info with
  | Some w => invoke (WatchCall w session_expired) watches list_watches log
  | None => log
  end.

(** The mutex-protected block of [finalize] once the session is found
    open: the flag is raised. *)
Definition set_expired (st : TestKeeper) : TestKeeper :=
  mkTestKeeper (root_path st) (queue_capacity st) (container st) (zxid st)
               (watches st) (list_watches st) (requests_queue st) true (log st).

(** The rest of [finalize], after the join of the mutator thread: expire
    the data watches, clear them, and drain the queue. *)
Definition expire_and_drain (st : TestKeeper) : TestKeeper :=
  let log := expire_watches (watches st) (list_watches st) (log st) in
  let watches : Watches := ∅ in
  let log := foldl (drain_one watches (list_watches st)) log (requests_queue st) in
  mkTestKeeper (root_path st) (queue_capacity st) (container st) (zxid st)
               watches (list_watches st) [] (expired st) log.

(** [finalize]: nothing when already expired; otherwise raise the flag and,
    the mutator thread joined, expire and drain.  The join has no effect on
    the state between two iterations of the mutator. *)
Definition finalize (st : TestKeeper) : TestKeeper :=
  if expired st then st else expire_and_drain (set_expired st).

(** [watches_type[path].emplace_back(watch)] *)
Definition emplace_back (path : string) (watch : WatchCallback) (w : Watches)
    : Watches :=
  <[path := default [] (w !! path) ++ [watch]]> w.

Definition is_ListRequest (request : Request) : bool :=
  match request with
  | ListRequest _ => true
  | _ => false
  end.

(** The registration at the head of the loop body: [list_watches] for a
    list request, [watches] otherwise, under the path the request carries at
    that point. *)
Definition register_watch (info : RequestInfo) (watches list_watches : Watches)
    : Watches * Watches :=
  match RequestInfo.watch info with
  | Some _ =>
      if is_ListRequest (RequestInfo.request info)
      then (watches,
            emplace_back (getPath (RequestInfo.request info))
                         (RequestInfo.watch info) list_watches)
      else (emplace_back (getPath (RequestInfo.request info))
                         (RequestInfo.watch info) watches,
            list_watches)
  | None => (watches, list_watches)
  end.

(** The body of the mutator loop for one dequeued envelope: register the
    watch, take a transaction id, prefix the paths, process, deliver watches
    on [ZOK], strip the prefix, call back.  A throwing [process] is caught
    by the loop, which finalizes. *)
Definition processRequest (now : Z) (info : RequestInfo) (st : TestKeeper)
    : TestKeeper :=
  let '(watches, list_watches) :=
    register_watch info (watches st) (list_watches st) in
  let zxid := wrap_int64 (zxid st + 1) in
  let request := addRootPath (root_path st) (RequestInfo.request info) in
  match process zxid now request (container st) with
  | (container, Threw _) =>
      finalize (mkTestKeeper (root_path st) (queue_capacity st) container zxid
                             watches list_watches (requests_queue st)
                             (expired st) (log st))
  | (container, Returned response) =>
      let '(watches, list_watches, log) :=
        if bool_decide (error response = ZOK)
        then processWatches request watches list_watches (log st)
        else (watches, list_watches, log st) in
      let response := removeRootPath (root_path st) response in
      let log :=
        match RequestInfo.callback info with
        | Some f => invoke (ResponseCall f response) watches list_watches log
        | None => log
        end in
      mkTestKeeper (root_path st) (queue_capacity st) container zxid
                   watches list_watches (requests_queue st) (expired st) log
  end.

(** One iteration of the loop of [processingThread]: leave when expired;
    an empty queue is a timed-out [tryPop]; a dequeued envelope is dropped
    when the session expired meanwhile. *)
Definition processingThread_step (now : Z) (st : TestKeeper) : TestKeeper :=
  if expired st then st
  else
    match requests_queue st with
    | [] => st
    | info :: queue =>
        let st := mkTestKeeper (root_path st) (queue_capacity st) (container st)
                               (zxid st) (watches st) (list_watches st) queue
                               (expired st) (log st) in
        if expired st then st else processRequest now info st
    end.

(** [pushRequest]: under the mutex, reject when expired, else try to
    enqueue; a [tryPush] on a full queue that the mutator does not relieve
    within the timeout fails.  Every exception passes through the handler
    that calls [finalize] and rethrows. *)
Definition pushRequest (info : RequestInfo) (st : TestKeeper)
    : TestKeeper * Outcome unit :=
  let attempt : TestKeeper * Outcome unit :=
    if expired st then (st, Threw (Exception ZSESSIONEXPIRED))
    else if (length (requests_queue st) <? queue_capacity st)%nat
    then (mkTestKeeper (root_path st) (queue_capacity st) (container st)
                       (zxid st) (watches st) (list_watches st)
                       (requests_queue st ++ [info]) (expired st) (log st),
          Returned ())
    else (st, Threw (Exception ZOPERATIONTIMEOUT)) in
  match attempt with
  | (st, Threw e) => (finalize st, Threw e)
  | (st, Returned u) => (st, Returned u)
  end.

(** The client methods. *)
Definition create (path data : string) (is_ephemeral is_sequential : bool)
    (callback : CallbackId) : TestKeeper -> TestKeeper * Outcome unit :=
  pushRequest
    (RequestInfo.mk (CreateRequest path data is_ephemeral is_sequential)
                    (Some callback) None).

Definition remove (path : string) (version : Z) (callback : CallbackId)
    : TestKeeper -> TestKeeper * Outcome unit :=
  pushRequest (RequestInfo.mk (RemoveRequest path version) (Some callback) None).

Definition exists_ (path : string) (callback : CallbackId) (watch : WatchCallback)
    : TestKeeper -> TestKeeper * Outcome unit :=
  pushRequest (RequestInfo.mk (ExistsRequest path) (Some callback) watch).

Definition get (path : string) (callback : CallbackId) (watch : WatchCallback)
    : TestKeeper -> TestKeeper * Outcome unit :=
  pushRequest (RequestInfo.mk (GetRequest path) (Some callback) watch).

Definition set (path data : string) (version : Z) (callback : CallbackId)
    : TestKeeper -> TestKeeper * Outcome unit :=
  pushRequest (RequestInfo.mk (SetRequest path data version) (Some callback) None).

Definition list_ (path : string) (callback : CallbackId) (watch : WatchCallback)
    : TestKeeper -> TestKeeper * Outcome unit :=
  pushRequest (RequestInfo.mk (ListRequest path) (Some callback) watch).

Definition check (path : string) (version : Z) (callback : CallbackId)
    : TestKeeper -> TestKeeper * Outcome unit :=
  pushRequest (RequestInfo.mk (CheckRequest path version) (Some callback) None).

(** [multi]: the request is constructed first; a constructor that throws is
    outside the handler of [pushRequest]. *)
Definition multi (requests : list Request) (callback : CallbackId)
    (st : TestKeeper) : TestKeeper * Outcome unit :=
  match TestKeeperMultiRequest requests with
  | Threw e => (st, Threw e)
  | Returned requests =>
      pushRequest (RequestInfo.mk (MultiRequest requests) (Some callback) None) st
  end.

(** ** The life of a session *)

(** What can happen to a session, one atomic step at a time: a client
    submits an envelope, the mutator runs one iteration of its loop (reading
    the clock), or [finalize] is called. *)
Inductive Action :=
| Submit (info : RequestInfo)
| Mutate (now : Z)
| Finalize.

Definition step (st : TestKeeper) (a : Action) : TestKeeper :=
  match a with
  | Submit info => fst (pushRequest info st)
  | Mutate now => processingThread_step now st
  | Finalize => finalize st
  end.

Definition run (actions : list Action) (st : TestKeeper) : TestKeeper :=
  foldl step st actions.


(** ** Counting *)

Definition is_watch_call (w : CallbackId) (c : Call) : bool :=
  match c with
  | WatchCall f _ => bool_decide (f = w)
  | ResponseCall _ _ => false
  end.

Definition watch_calls (w : CallbackId) (calls : list Call) : nat :=
  length (filter (fun c => is_watch_call w c = true) calls).

(** How often the watch callback [w] has been invoked. *)
Definition fired (w : CallbackId) (log : Log) : nat :=
  watch_calls w (map call log).






(** ** What a delivery and an expiration amount to *)

Definition watch_response (path : string) : WatchResponse :=
  WatchResponse.mk TYPE_UNSET STATE_UNSET path ZOK.








(** ** The spec's admissible sub-requests *)

(** "Only Create, Remove, Set, Check are admissible." *)
Definition admissible (request : Request) : bool :=
  match request with
  | CreateRequest _ _ _ _ | RemoveRequest _ _
  | SetRequest _ _ _ | CheckRequest _ _ => true
  | ExistsRequest _ | GetRequest _ | ListRequest _ | MultiRequest _ => false
  end.


(** ** Example containers *)

(** The container of a fresh session. *)
Definition container_root : Container := emplace "/" Node0 ∅.

(** The fresh container after [create("/k")] with empty data. *)
Definition container_k : Container :=
  fst (process 1 0 (CreateRequest "/k" EmptyString false false) container_root).


(** The fresh container after [create("/a")] with empty data. *)
Definition container_a : Container :=
  fst (process 1 0 (CreateRequest "/a" EmptyString false false) container_root).

(** ** Example registries and sessions *)

(** One data watch on "/k". *)
Definition watches_k : Watches := {[ "/k" := [Some 1%nat] ]}.

(** The fresh container after [create("/root")] and [create("/root/k")]. *)
Definition container_rooted : Container :=
  fst (process 2 0 (CreateRequest "/root/k" EmptyString false false)
         (fst (process 1 0 (CreateRequest "/root" EmptyString false false) container_root))).

(** A session with root prefix "/root" over that container. *)
Definition session_rooted : TestKeeper :=
  mkTestKeeper "/root" 1 container_rooted 2 ∅ ∅ [] false [].

(** A fresh session (queue bound 1) in which [list("/")] with watch 9 has
    been processed and [create("/a")] is waiting in the queue. *)
Definition session_busy : TestKeeper :=
  fst (create "/a" EmptyString false false 2%nat
         (processingThread_step 0
            (fst (list_ "/" 1%nat (Some 9%nat) (TestKeeper_new EmptyString 1))))).



(** ** Structural induction on requests *)

Section Request_nested_ind.
Variable P : Request -> Prop.
Hypothesis Hcreate : forall p d e s, P (CreateRequest p d e s).
Hypothesis Hremove : forall p v, P (RemoveRequest p v).
Hypothesis Hexists : forall p, P (ExistsRequest p).
Hypothesis Hget : forall p, P (GetRequest p).
Hypothesis Hset : forall p d v, P (SetRequest p d v).
Hypothesis Hlist : forall p, P (ListRequest p).
Hypothesis Hcheck : forall p v, P (CheckRequest p v).
Hypothesis Hmulti : forall requests, Forall P requests -> P (MultiRequest requests).

Fixpoint Request_nested_ind (request : Request) : P request :=
    match request with
    | CreateRequest p d e s => Hcreate p d e s
    | RemoveRequest p v => Hremove p v
    | ExistsRequest p => Hexists p
    | GetRequest p => Hget p
    | SetRequest p d v => Hset p d v
    | ListRequest p => Hlist p
    | CheckRequest p v => Hcheck p v
    | MultiRequest requests =>
        Hmulti requests
          ((fix all (requests : list Request) : Forall P requests :=
              match requests with
              | [] => @List.Forall_nil _ P
              | r :: rest => @List.Forall_cons _ P r rest (Request_nested_ind r) (all rest)
              end) requests)
    end.
End Request_nested_ind.






(** ** Kinds of requests *)

(** The requests whose [process] only reads the container. *)
Definition is_read (request : Request) : bool :=
  match request with
  | ExistsRequest _ | GetRequest _ | ListRequest _ | CheckRequest _ _ => true
  | _ => false
  end.

(** The fresh container after a plain [create("/a0000000000")]. *)
Definition container_taken : Container :=
  fst (process 1 0 (CreateRequest "/a0000000000" EmptyString false false)
         container_root).

(** Whether a request is, or contains, a remove. *)
Fixpoint removes (request : Request) : bool :=
  match request with
  | RemoveRequest _ _ => true
  | MultiRequest requests => existsb removes requests
  | _ => false
  end.

(** Every node of [c] is still in [c'], under the same path, with the
    creation stamps and flags it had. *)
Definition keeps_nodes (c c' : Container) : Prop :=
  forall k n,
    c !! k = Some n ->
    exists n',
      c' !! k = Some n' /\
      Stat.czxid (Node.stat n') = Stat.czxid (Node.stat n) /\
      Stat.ctime (Node.stat n') = Stat.ctime (Node.stat n) /\
      Node.is_ephemeral n' = Node.is_ephemeral n /\
      Node.is_sequental n' = Node.is_sequental n.

(** ** Listing *)

(** A list of keys in ascending order. *)
Fixpoint ascending (l : list string) : Prop :=
  match l with
  | [] => True
  | x :: rest => Forall (fun y => String.leb x y = true) rest /\ ascending rest
  end.

(** The prefix the loop of [TestKeeperListRequest::process] walks with: the
    path itself when it ends with a slash, else the path and a slash. *)
Definition list_prefix (path : string) : string :=
  match back path with
  | Some c => if Ascii.eqb c "/"%char then path else path +:+ "/"
  | None => path
  end.

(** The names a list request returns for a present, non-empty path. *)
Definition list_names (path : string) (container : Container) : list string :=
  map baseName
      (filter (fun k => parentPath k = path)
         (take_while (fun k => startsWith k (list_prefix path))
            (drop_while (fun k => String.leb k (list_prefix path))
               (map fst (ordered_entries container))))).

(** A container holding "/", "/a", "/a/x" and the key "/a/". *)
Definition container_slashed : Container :=
  fst (process 4 0 (CreateRequest "/a/" EmptyString false false)
         (fst (process 3 0 (CreateRequest "/a/x" EmptyString false false)
                 container_a))).

(** ** Relations between containers *)

(** Every node of [c] is still in [c'] under the same path, related by [R]
    to what it was. *)
Definition persists (R : Node -> Node -> Prop) (c c' : Container) : Prop :=
  forall k n, c !! k = Some n -> exists n', c' !! k = Some n' /\ R n n'.

(** The version, the child version and the child count have not gone
    down. *)
Definition counters_grow (n n' : Node) : Prop :=
  Stat.version (Node.stat n) <= Stat.version (Node.stat n') /\
  Stat.cversion (Node.stat n) <= Stat.cversion (Node.stat n') /\
  Stat.numChildren (Node.stat n) <= Stat.numChildren (Node.stat n').
(** * Properties of the mutation engine *)

Lemma process_Multi zxid now requests container :
  process zxid now (MultiRequest requests) container
  = multi_loop zxid now container requests container [].
Proof. reflexivity. Qed.

Lemma apply_all_ok_length zxid now requests :
  forall container container' responses,
    apply_all_ok zxid now requests container = Some (container', responses) ->
    length responses = length requests.
Proof.
  induction requests as [|r rest IH]; intros c c' rs H; simpl in H.
  - by inversion H.
  - destruct (process zxid now r c) as [c1 [resp|e]]; [|done].
    destruct (bool_decide (error resp = ZOK)); [|done].
    destruct (apply_all_ok zxid now rest c1) as [[c2 rs2]|] eqn:E; [|done].
    inversion H; subst. simpl. f_equal. eauto.
Qed.

(** A run of successful sub-requests only advances the loop. *)
Lemma multi_loop_app zxid now container_copy pre :
  forall rest container container' responses acc,
    apply_all_ok zxid now pre container = Some (container', responses) ->
    multi_loop zxid now container_copy (pre ++ rest) container acc
    = multi_loop zxid now container_copy rest container' (acc ++ responses).
Proof.
  induction pre as [|r pre IH]; intros rest c c' rs acc H; simpl in H.
  - inversion H; subst. by rewrite app_nil_r.
  - destruct (process zxid now r c) as [c1 [resp|e]] eqn:Hp; [|done].
    destruct (bool_decide (error resp = ZOK)) eqn:Hok; [|done].
    destruct (apply_all_ok zxid now pre c1) as [[c2 rs2]|] eqn:E; [|done].
    inversion H; subst.
    apply bool_decide_eq_true in Hok.
    change ((r :: pre) ++ rest) with (r :: (pre ++ rest)).
    cbn [multi_loop]. rewrite Hp.
    rewrite bool_decide_eq_false_2 by (intros Hne; by apply Hne).
    rewrite (IH rest c1 c' rs2 (acc ++ [resp]) E).
    by rewrite <- app_assoc.
Qed.

(** C1. A multi-request whose sub-requests [pre] all answer ZOK and whose
    next sub-request [failing] answers with an error aborts: the container is
    the one the call started with, the response lists the responses of [pre]
    followed by the failing one, whose error is the top-level error, and
    nothing of [post] appears in it.  If [failing] throws instead, the
    container is likewise the initial one and the exception propagates. *)
Theorem C1_multi_abort_restores zxid now pre failing post
    (container container' : Container) (responses : list Response)
    (Hpre : apply_all_ok zxid now pre container = Some (container', responses)) :
  (forall container'' response,
      process zxid now failing container' = (container'', Returned response) ->
      error response <> ZOK ->
      process zxid now (MultiRequest (pre ++ failing :: post)) container
      = (container,
         Returned (MultiResponse (error response) (responses ++ [response]))) /\
      length (responses ++ [response]) = S (length pre)) /\
  (forall container'' e,
      process zxid now failing container' = (container'', Threw e) ->
      process zxid now (MultiRequest (pre ++ failing :: post)) container
      = (container, Threw e)).
Proof.
  split.
  - intros c'' resp Hp Herr. split.
    + rewrite process_Multi.
      rewrite (multi_loop_app _ _ _ _ _ _ _ _ [] Hpre).
      cbn [multi_loop app]. rewrite Hp.
      by rewrite bool_decide_eq_true_2.
    + rewrite length_app. simpl.
      rewrite (apply_all_ok_length _ _ _ _ _ _ Hpre). lia.
  - intros c'' e Hp.
    rewrite process_Multi.
    rewrite (multi_loop_app _ _ _ _ _ _ _ _ [] Hpre).
    cbn [multi_loop app]. by rewrite Hp.
Qed.

Lemma C1_multi_abort_restores_witness :
  process 1 0
    (MultiRequest ([CreateRequest "/a" EmptyString false false]
                   ++ CreateRequest "/a" EmptyString false false :: [CheckRequest "/" (-1)]))
    container_root
  = (container_root,
     Returned (MultiResponse ZNODEEXISTS
                 ([CreateResponse ZOK "/a"] ++ [CreateResponse ZNODEEXISTS EmptyString]))).
Proof.
  assert (Hpre : apply_all_ok 1 0 [CreateRequest "/a" EmptyString false false] container_root
                 = Some (container_a, [CreateResponse ZOK "/a"]))
    by (vm_compute; reflexivity).
  destruct (C1_multi_abort_restores 1 0 _ (CreateRequest "/a" EmptyString false false)
              [CheckRequest "/" (-1)] _ _ _ Hpre) as [H _].
  destruct (H container_a (CreateResponse ZNODEEXISTS EmptyString)) as [Heq _].
  - vm_compute; reflexivity.
  - discriminate.
  - exact Heq.
Defined.

(** ** Set *)

Lemma parentPath_root : parentPath "/" = "/".
Proof. reflexivity. Qed.

(** What a successful set changes: the data, the version, [mzxid], [mtime]
    and the parent's [cversion]; [dataLength] keeps its old value. *)
Lemma processSet_success zxid now path data version
    (container : Container) (node parent : Node) :
  container !! path = Some node ->
  container !! parentPath path = Some parent ->
  version = -1 \/ version = Stat.version (Node.stat node) ->
  exists container' node' parent',
    processSet zxid now path data version container
    = (container', Returned (SetResponse ZOK (Node.stat node'))) /\
    container' !! path = Some node' /\
    Node.data node' = data /\
    Stat.version (Node.stat node') = Stat.version (Node.stat node) + 1 /\
    Stat.mzxid (Node.stat node') = zxid /\
    Stat.mtime (Node.stat node') = now /\
    Stat.dataLength (Node.stat node') = Stat.dataLength (Node.stat node) /\
    container' !! parentPath path = Some parent' /\
    Stat.cversion (Node.stat parent') = Stat.cversion (Node.stat parent) + 1.
Proof.
  intros Hn Hp Hv. unfold processSet. rewrite Hn.
  assert (Hc : bool_decide (version = -1)
               || bool_decide (version = Stat.version (Node.stat node)) = true).
  { destruct Hv as [Hv|Hv].
    - by rewrite (bool_decide_eq_true_2 _ Hv).
    - rewrite (bool_decide_eq_true_2 (version = Stat.version _) Hv).
      by rewrite orb_true_r. }
  rewrite Hc.
  destruct (decide (parentPath path = path)) as [Heq|Hne].
  - rewrite Heq in *. rewrite Hn in Hp. inversion Hp; subst parent.
    rewrite !lookup_alter_eq, Hn. simpl.
    exists (alter (set_stat inc_cversion) path
                  (alter (set_node zxid now data) path container)),
           (set_stat inc_cversion (set_node zxid now data node)),
           (set_stat inc_cversion (set_node zxid now data node)).
    rewrite !lookup_alter_eq, Hn. simpl. repeat split; reflexivity.
  - rewrite lookup_alter_ne by congruence. rewrite Hp.
    rewrite lookup_alter_ne by done. rewrite lookup_alter_eq, Hn. simpl.
    exists (alter (set_stat inc_cversion) (parentPath path)
                  (alter (set_node zxid now data) path container)),
           (set_node zxid now data node),
           (set_stat inc_cversion parent).
    rewrite lookup_alter_ne by done. rewrite !lookup_alter_eq, Hn.
    rewrite lookup_alter_ne by congruence. rewrite Hp. simpl.
    repeat split; reflexivity.
Qed.

(** C2. On the fresh container holding "/k" with empty data, the set of "/k"
    to "v1" at version 0 answers ZOK with version 1 and stores the two bytes,
    but the node's [dataLength] is still 0. *)
Theorem C2_set_leaves_dataLength_stale :
  let stat' := Stat.mk 1 2 0 0 1 0 0 0 in
  snd (process 2 0 (SetRequest "/k" "v1" 0) container_k)
  = Returned (SetResponse ZOK stat') /\
  fst (process 2 0 (SetRequest "/k" "v1" 0) container_k) !! "/k"
  = Some (Node.mk "v1" false false stat' 0) /\
  Stat.dataLength stat' = 0 /\
  Z.of_nat (String.length "v1") = 2.
Proof. repeat split; vm_compute; reflexivity. Qed.

(** ** Remove *)

(** C9. Removing "/" when it is present, childless and the version matches
    (or is -1): the parent of "/" is "/" itself, the entry is erased first,
    so the checked lookup of the parent throws; no response is returned and
    the container is left without its root. *)
Theorem C9_remove_root_throws zxid now version (container : Container) (root : Node)
    (Hroot : container !! "/" = Some root)
    (Hchildless : Stat.numChildren (Node.stat root) = 0)
    (Hversion : version = -1 \/ version = Stat.version (Node.stat root)) :
  parentPath "/" = "/" /\
  process zxid now (RemoveRequest "/" version) container
  = (delete "/" container, Threw out_of_range) /\
  delete "/" container !! "/" = None.
Proof.
  split; [reflexivity|]. split; [|apply lookup_delete_eq].
  cbn [process]. unfold processRemove. rewrite Hroot.
  assert (Hc : bool_decide (version ≠ -1)
               && bool_decide (version ≠ Stat.version (Node.stat root)) = false).
  { destruct Hversion as [Hv|Hv].
    - by rewrite (bool_decide_eq_false_2 (version ≠ -1)) by (intros H; by apply H).
    - rewrite (bool_decide_eq_false_2 (version ≠ Stat.version _))
        by (intros H; by apply H).
      by rewrite andb_false_r. }
  rewrite Hc.
  rewrite bool_decide_eq_false_2 by (intros H; by apply H).
  rewrite parentPath_root. by rewrite lookup_delete_eq.
Qed.

Lemma C9_remove_root_throws_witness :
  process 5 0 (RemoveRequest "/" (-1)) container_root
  = (delete "/" container_root, Threw out_of_range).
Proof.
  refine (proj1 (proj2 (C9_remove_root_throws 5 0 (-1) container_root Node0 _ _ _))).
  - reflexivity.
  - reflexivity.
  - left; reflexivity.
Defined.

(** ** Multi-request construction *)

Lemma TestKeeperMultiRequest_spec requests :
  TestKeeperMultiRequest requests
  = if forallb admissible requests then Returned requests
    else Threw (Exception ZBADARGUMENTS).
Proof.
  induction requests as [|r rest IH]; [reflexivity|].
  destruct r; simpl; try reflexivity; rewrite IH;
    by destruct (forallb admissible rest).
Qed.

(** C7. The constructor of a multi-request returns the sub-requests exactly
    when each is a create, remove, set or check, and throws ZBADARGUMENTS
    otherwise; in that case [multi] throws the same before [pushRequest] is
    reached, leaving the session, its queue included, as it was. *)
Theorem C7_multi_construction requests callback st :
  TestKeeperMultiRequest requests
  = (if forallb admissible requests then Returned requests
     else Threw (Exception ZBADARGUMENTS)) /\
  multi requests callback st
  = (if forallb admissible requests
     then pushRequest (RequestInfo.mk (MultiRequest requests) (Some callback) None) st
     else (st, Threw (Exception ZBADARGUMENTS))).
Proof.
  split; [apply TestKeeperMultiRequest_spec|].
  unfold multi. rewrite TestKeeperMultiRequest_spec.
  by destruct (forallb admissible requests).
Qed.

(** ** Sequential create *)







Lemma emplace_lookup_other (k k' : string) (n n' : Node) (c : Container) :
  c !! k' = Some n' -> emplace k n c !! k' = Some n'.
Proof.
  intros H. unfold emplace. destruct (c !! k) eqn:E; [done|].
  rewrite lookup_insert_ne; [done|]. intros ->. congruence.
Qed.




(** * Watch delivery *)





Lemma watch_calls_app w l1 l2 :
  watch_calls w (l1 ++ l2) = (watch_calls w l1 + watch_calls w l2)%nat.
Proof. unfold watch_calls. by rewrite filter_app, length_app. Qed.

Lemma fired_app w l1 l2 : fired w (l1 ++ l2) = (fired w l1 + fired w l2)%nat.
Proof. unfold fired. by rewrite map_app, watch_calls_app. Qed.










(** * Registration of watches *)

(** With an empty root prefix the registration key is the delivery key. *)
Lemma addRootPath_empty_getPath request :
  getPath (addRootPath EmptyString request) = getPath request.
Proof. by destruct request. Qed.

(** The registration files the watch under the path the request carries
    when it is dequeued, in [list_watches] for a list request and in
    [watches] otherwise. *)
Lemma register_watch_key info (data_watches child_watches : Watches) f :
  RequestInfo.watch info = Some f ->
  let key := getPath (RequestInfo.request info) in
  let registries := register_watch info data_watches child_watches in
  if is_ListRequest (RequestInfo.request info)
  then registries.1 = data_watches /\
       Some f ∈ default [] (registries.2 !! key)
  else registries.2 = child_watches /\
       Some f ∈ default [] (registries.1 !! key).
Proof.
  intros Hw. unfold register_watch. rewrite Hw.
  destruct (is_ListRequest (RequestInfo.request info)); simpl;
    (split; [reflexivity|]); unfold emplace_back;
    rewrite lookup_insert_eq; simpl; apply elem_of_app; right;
    apply list_elem_of_singleton; reflexivity.
Qed.

(** C5. Under the root prefix "/root": the watch that comes with get("/k")
    is registered under "/k", the path before prefixing, while the delivery
    for a later set("/k") looks under "/root/k"; the set answers ZOK, the
    watch is not invoked and stays registered. *)
Theorem C5_watch_registered_without_prefix :
  let st1 := processingThread_step 0 (get "/k" 1%nat (Some 7%nat) session_rooted).1 in
  let st2 := processingThread_step 0 (set "/k" "v" (-1) 2%nat st1).1 in
  watches st1 = {[ "/k" := [Some 7%nat] ]} /\
  getPath (addRootPath (root_path st1) (SetRequest "/k" "v" (-1))) = "/root/k" /\
  watches st1 !! "/root/k" = None /\
  map call (log st2)
  = [ResponseCall 1%nat (GetResponse ZOK (Stat.mk 2 2 0 0 0 0 0 0) EmptyString);
     ResponseCall 2%nat (SetResponse ZOK (Stat.mk 2 4 0 0 1 0 0 0))] /\
  fired 7%nat (log st2) = 0%nat /\
  watches st2 = {[ "/k" := [Some 7%nat] ]}.
Proof. repeat split; vm_compute; reflexivity. Qed.

(** * Finalization *)

Lemma finalize_expired st : expired st = true -> finalize st = st.
Proof. intros H. unfold finalize. by rewrite H. Qed.


Lemma insert_sorted_perm {A} (e : string * A) l : insert_sorted e l ≡ₚ e :: l.
Proof.
  induction l as [|x l IH]; simpl; [done|].
  destruct (String.leb e.1 x.1); [done|].
  rewrite IH. apply Permutation_swap.
Qed.

Lemma ordered_entries_perm {A} (m : gmap string A) :
  ordered_entries m ≡ₚ map_to_list m.
Proof.
  unfold ordered_entries.
  induction (map_to_list m) as [|e l IH]; simpl; [done|].
  by rewrite insert_sorted_perm, IH.
Qed.

Lemma ordered_entries_lookup {A} (m : gmap string A) path x :
  (path, x) ∈ ordered_entries m <-> m !! path = Some x.
Proof. rewrite ordered_entries_perm. apply elem_of_map_to_list. Qed.





Lemma finalize_queue st : requests_queue (finalize st) = [] \/ finalize st = st.
Proof. unfold finalize. destruct (expired st); auto. Qed.


(** * Submission *)

Lemma pushRequest_expired info st :
  expired st = true ->
  pushRequest info st = (st, Threw (Exception ZSESSIONEXPIRED)).
Proof.
  intros H. unfold pushRequest. rewrite H. by rewrite finalize_expired.
Qed.




(** * Bookkeeping of watch callbacks *)






Lemma fired_invoke w c (a b : Watches) log :
  fired w (invoke c a b log) = (fired w log + watch_calls w [c])%nat.
Proof. unfold invoke. by rewrite fired_app. Qed.















(** * The life of a session *)



















(** * Further properties: paths *)

Lemma substring_all s : substring 0 (String.length s) s = s.
Proof. induction s as [|a s IH]; simpl; congruence. Qed.

(** The last occurrence of a character splits the string around it, and the
    part after it is free of that character. *)
Lemma rfind_split c s :
  forall p,
    rfind c s = Some p ->
    s = substring 0 p s +:+ String c (substring (S p) (String.length s - S p) s) /\
    rfind c (substring (S p) (String.length s - S p) s) = None.
Proof.
  induction s as [|a s IH]; intros p H; simpl in H; [discriminate|].
  destruct (rfind c s) as [q|] eqn:E.
  - inversion H; subst p. destruct (IH q eq_refl) as [Hs Hn].
    change (String.length (String a s) - S (S q))%nat
      with (String.length s - S q)%nat.
    change (substring (S (S q)) (String.length s - S q) (String a s))
      with (substring (S q) (String.length s - S q) s).
    split; [|exact Hn].
    change (substring 0 (S q) (String a s)) with (String a (substring 0 q s)).
    etransitivity; [apply (f_equal (String a) Hs) | reflexivity].
  - destruct (Ascii.eqb a c) eqn:Hac; [|discriminate].
    inversion H; subst p. apply Ascii.eqb_eq in Hac. subst a.
    change (String.length (String c s) - 1)%nat with (String.length s - 0)%nat.
    rewrite Nat.sub_0_r.
    change (substring 1 (String.length s) (String c s))
      with (substring 0 (String.length s) s).
    rewrite substring_all. simpl.
    split; [by destruct s | exact E].
Qed.

(** X1. [parentPath] and [baseName] take a path apart at its last slash:
    joined again with a slash they give the path back (for a path directly
    under the root the parent is "/" itself and "/" followed by the base
    name is the path); a path without any slash is its own parent and its own
    base name; a base name never contains a slash. *)
Theorem X1_parentPath_baseName_split path :
  match rfind "/" path with
  | None => parentPath path = path /\ baseName path = path
  | Some O => parentPath path = "/" /\ "/" +:+ baseName path = path
  | Some (S p) => parentPath path +:+ "/" +:+ baseName path = path
  end /\
  rfind "/" (baseName path) = None.
Proof.
  unfold parentPath, baseName.
  destruct (rfind "/" path) as [p|] eqn:E; [|by rewrite E].
  destruct (rfind_split _ _ _ E) as [Hs Hn].
  split; [|exact Hn].
  destruct p as [|p].
  - split; [reflexivity|]. symmetry. etransitivity; [exact Hs|].
    by destruct path.
  - symmetry. exact Hs.
Qed.

(** * Further properties: the mutation engine *)

Lemma process_Create_eq zxid now path data e s (c : Container) :
  process zxid now (CreateRequest path data e s) c
  = processCreate zxid now path data e s c.
Proof. reflexivity. Qed.

(** X2. A create of an absent path under a present, non-ephemeral parent
    (not sequential) answers ZOK with that path; a get of the path then
    returns the data with a stat stamped with the create's zxid and time,
    version 0, no children and [dataLength] the length of the data; the
    parent has one child and one child-version more; every other entry of
    the container is as before. *)
Theorem X2_create_then_get zxid now zxid' now' path data is_ephemeral
    (container : Container) (parent : Node)
    (Habsent : container !! path = None)
    (Hparent : container !! parentPath path = Some parent)
    (Hplain : Node.is_ephemeral parent = false) :
  let container' :=
    (process zxid now (CreateRequest path data is_ephemeral false) container).1 in
  process zxid now (CreateRequest path data is_ephemeral false) container
  = (container', Returned (CreateResponse ZOK path)) /\
  process zxid' now' (GetRequest path) container'
  = (container',
     Returned (GetResponse ZOK
                 (Stat.mk zxid zxid now now 0 0 0 (Z.of_nat (String.length data)))
                 data)) /\
  container' !! parentPath path
  = Some (set_stat inc_numChildren (set_stat inc_cversion parent)) /\
  (forall k, k <> path -> k <> parentPath path -> container' !! k = container !! k).
Proof.
  assert (Hne : parentPath path <> path) by congruence.
  intros container'. subst container'.
  rewrite process_Create_eq. unfold processCreate.
  rewrite Habsent, Hparent, Hplain. cbn [fst]. unfold emplace. rewrite Habsent.
  split; [reflexivity|]. split; [|split].
  - cbn [process]. unfold processGet.
    rewrite !lookup_alter_ne by done. by rewrite lookup_insert_eq.
  - rewrite !lookup_alter_eq. rewrite lookup_insert_ne by congruence.
    by rewrite Hparent.
  - intros k Hk Hkp. rewrite !lookup_alter_ne by congruence.
    by rewrite lookup_insert_ne by congruence.
Qed.

Lemma X2_create_then_get_witness :
  process 7 8 (GetRequest "/k") container_k
  = (container_k,
     Returned (GetResponse ZOK (Stat.mk 1 1 0 0 0 0 0 0) EmptyString)).
Proof.
  refine (proj1 (proj2 (X2_create_then_get 1 0 7 8 "/k" EmptyString false
                          container_root Node0 _ _ _))); reflexivity.
Defined.

Lemma string_length_app s1 s2 :
  String.length (s1 +:+ s2) = (String.length s1 + String.length s2)%nat.
Proof.
  induction s1 as [|a s1 IH]; [reflexivity|]. simpl. f_equal. exact IH.
Qed.

Lemma substring_0_length n :
  forall s, (String.length (substring 0 n s) <= String.length s)%nat.
Proof.
  induction n as [|n IH]; intros [|a s]; simpl; try lia.
  specialize (IH s). lia.
Qed.

Lemma parentPath_length path :
  (String.length (parentPath path) <= Nat.max 1 (String.length path))%nat.
Proof.
  unfold parentPath. destruct (rfind "/" path) as [[|p]|]; simpl; try lia.
  pose proof (substring_0_length (S p) path). lia.
Qed.

Lemma seq_num_str_length n : (10 <= String.length (seq_num_str n))%nat.
Proof.
  unfold seq_num_str, setw_setfill.
  assert (H : forall l, String.length (string_of_list_ascii l) = length l).
  { induction l as [|a l IHl]; simpl; congruence. }
  rewrite H, length_app, repeat_length. lia.
Qed.

(** The path a sequential create commits is never the parent's. *)
Lemma sequential_path_not_parent path n :
  path +:+ seq_num_str n <> parentPath path.
Proof.
  intros Heq. apply (f_equal String.length) in Heq.
  rewrite string_length_app in Heq.
  pose proof (seq_num_str_length n). pose proof (parentPath_length path). lia.
Qed.

(** X3. A sequential create whose suffixed path is already taken still
    answers ZOK with that path: [emplace] leaves the node found there as it
    is and adds nothing, yet the parent's [seq_num], [cversion] and
    [numChildren] are all incremented, so the parent counts a child that
    was not added. *)
Theorem X3_sequential_create_on_taken_path zxid now path data is_ephemeral
    (container : Container) (parent existing : Node)
    (Habsent : container !! path = None)
    (Hparent : container !! parentPath path = Some parent)
    (Hplain : Node.is_ephemeral parent = false)
    (Htaken : container !! (path +:+ seq_num_str (Node.seq_num parent))
              = Some existing) :
  let path_created := path +:+ seq_num_str (Node.seq_num parent) in
  let container' :=
    (process zxid now (CreateRequest path data is_ephemeral true) container).1 in
  process zxid now (CreateRequest path data is_ephemeral true) container
  = (container', Returned (CreateResponse ZOK path_created)) /\
  container' !! path_created = Some existing /\
  container' !! parentPath path
  = Some (set_stat inc_numChildren (set_stat inc_cversion (inc_seq_num parent))) /\
  (forall k, k <> parentPath path -> container' !! k = container !! k).
Proof.
  intros path_created container'. subst path_created container'.
  pose proof (sequential_path_not_parent path (Node.seq_num parent)) as Hne.
  assert (Hne' : parentPath path <> path +:+ seq_num_str (Node.seq_num parent))
    by (intros Heq; by apply Hne).
  rewrite process_Create_eq. unfold processCreate.
  rewrite Habsent, Hparent, Hplain. cbn [fst].
  unfold emplace. rewrite lookup_alter_ne by exact Hne'. rewrite Htaken.
  split; [reflexivity|]. split; [|split].
  - rewrite !lookup_alter_ne by exact Hne'. exact Htaken.
  - by rewrite !lookup_alter_eq, Hparent.
  - intros k Hk. by rewrite !lookup_alter_ne by congruence.
Qed.

Lemma X3_sequential_create_on_taken_path_witness :
  (process 2 0 (CreateRequest "/a" EmptyString false true) container_taken).1
    !! parentPath "/a"
  = Some (set_stat inc_numChildren
            (set_stat inc_cversion
               (inc_seq_num
                  (set_stat inc_numChildren (set_stat inc_cversion Node0))))).
Proof.
  refine (proj1 (proj2 (proj2
            (X3_sequential_create_on_taken_path 2 0 "/a" EmptyString false
               container_taken
               (set_stat inc_numChildren (set_stat inc_cversion Node0))
               (Node.mk EmptyString false false (Stat.mk 1 1 0 0 0 0 0 0) 0)
               _ _ _ _)))); vm_compute; reflexivity.
Defined.

Lemma multi_loop_error zxid now container_copy requests :
  forall (container container' : Container) acc response,
    multi_loop zxid now container_copy requests container acc
    = (container', Returned response) ->
    error response <> ZOK ->
    container' = container_copy.
Proof.
  induction requests as [|r rest IH]; intros c c' acc resp H Herr.
  - simpl in H. inversion H; subst. by destruct Herr.
  - cbn [multi_loop] in H.
    destruct (process zxid now r c) as [c1 [cur|e]]; [|discriminate].
    destruct (bool_decide (error cur ≠ ZOK)).
    + by inversion H.
    + eapply IH; eauto.
Qed.

Lemma process_error_container zxid now request
    (container container' : Container) response
    (Hrun : process zxid now request container = (container', Returned response))
    (Herror : error response <> ZOK) :
  container' = container.
Proof.
  destruct request as [p d e s|p v|p|p|p d v|p|p v|requests].
  - rewrite process_Create_eq in Hrun. unfold processCreate in Hrun.
    destruct (container !! p); [by inversion Hrun|].
    destruct (container !! parentPath p) as [it|]; [|by inversion Hrun].
    destruct (Node.is_ephemeral it); [by inversion Hrun|].
    destruct s; inversion Hrun; subst; by destruct Herror.
  - cbn [process] in Hrun. unfold processRemove in Hrun.
    destruct (container !! p) as [it|]; [|by inversion Hrun].
    destruct (_ && _); [by inversion Hrun|].
    destruct (bool_decide _); [by inversion Hrun|].
    destruct (delete p container !! parentPath p); [|discriminate].
    inversion Hrun; subst. by destruct Herror.
  - cbn [process] in Hrun. unfold processExists in Hrun.
    destruct (container !! p); by inversion Hrun.
  - cbn [process] in Hrun. unfold processGet in Hrun.
    destruct (container !! p); by inversion Hrun.
  - cbn [process] in Hrun. unfold processSet in Hrun.
    destruct (container !! p) as [it|]; [|by inversion Hrun].
    destruct (_ || _); [|by inversion Hrun].
    destruct (alter _ p container !! parentPath p); [|discriminate].
    inversion Hrun; subst. by destruct Herror.
  - cbn [process] in Hrun. unfold processList in Hrun.
    destruct (container !! p); [|by inversion Hrun].
    destruct (back p); by inversion Hrun.
  - cbn [process] in Hrun. unfold processCheck in Hrun.
    destruct (container !! p) as [it|]; [|by inversion Hrun].
    destruct (_ && _); by inversion Hrun.
  - rewrite process_Multi in Hrun. by eapply multi_loop_error.
Qed.

(** X4. Failure is atomic for every kind of request: whenever [process]
    returns a response whose error is not ZOK, the container is exactly as
    it was before the call. *)
Theorem X4_error_leaves_container zxid now request
    (container container' : Container) response
    (Hrun : process zxid now request container = (container', Returned response))
    (Herror : error response <> ZOK) :
  container' = container.
Proof. by eapply process_error_container. Qed.

Lemma X4_error_leaves_container_witness :
  (process 2 0 (SetRequest "/k" "v" 5) container_k).1 = container_k.
Proof.
  refine (X4_error_leaves_container 2 0 (SetRequest "/k" "v" 5) container_k _
            (SetResponse ZBADVERSION Stat0) _ _).
  - vm_compute; reflexivity.
  - discriminate.
Defined.

Lemma process_read_fst zxid now request (container : Container) :
  is_read request = true ->
  (process zxid now request container).1 = container.
Proof.
  intros Hread.
  destruct request as [p d e s|p v|p|p|p d v|p|p v|requests];
    try discriminate; cbn [process].
  - unfold processExists. by destruct (container !! p).
  - unfold processGet. by destruct (container !! p).
  - unfold processList. destruct (container !! p); [|done]. by destruct (back p).
  - unfold processCheck. destruct (container !! p); [|done]. by destruct (_ && _).
Qed.

(** X5. Exists, get, list and check never modify the container, whether
    they answer ZOK, answer an error, or (list) throw. *)
Theorem X5_reads_leave_container zxid now request (container : Container)
    (Hread : is_read request = true) :
  (process zxid now request container).1 = container.
Proof. by apply process_read_fst. Qed.

Lemma X5_reads_leave_container_witness :
  (process 2 0 (ListRequest "/") container_k).1 = container_k.
Proof.
  refine (X5_reads_leave_container 2 0 (ListRequest "/") container_k _).
  reflexivity.
Defined.





(** X8. A set guarded by the node's current version (not -1) uses its
    guard up: the same set submitted again answers ZBADVERSION and changes
    nothing, so the node keeps the data of the first set. *)
Theorem X8_guarded_set_uses_guard_up zxid now zxid' now' path data data' version
    (container : Container) (node parent : Node)
    (Hnode : container !! path = Some node)
    (Hparent : container !! parentPath path = Some parent)
    (Hversion : version = Stat.version (Node.stat node))
    (Hguard : version <> -1) :
  let container' := (process zxid now (SetRequest path data version) container).1 in
  process zxid' now' (SetRequest path data' version) container'
  = (container', Returned (SetResponse ZBADVERSION Stat0)) /\
  exists node', container' !! path = Some node' /\ Node.data node' = data.
Proof.
  destruct (processSet_success zxid now path data version container node parent
              Hnode Hparent (or_intror Hversion))
    as (c1 & node' & parent' & Hrun & Hn' & Hd & Hv & _).
  intros container'.
  assert (Hc1 : container' = c1).
  { subst container'. cbn [process]. by rewrite Hrun. }
  rewrite Hc1. split; [|by exists node'].
  cbn [process]. unfold processSet. rewrite Hn'.
  rewrite (bool_decide_eq_false_2 (version = -1)) by done.
  rewrite bool_decide_eq_false_2 by lia. reflexivity.
Qed.

Lemma X8_guarded_set_uses_guard_up_witness :
  process 3 0 (SetRequest "/k" "v2" 0)
          (process 2 0 (SetRequest "/k" "v1" 0) container_k).1
  = ((process 2 0 (SetRequest "/k" "v1" 0) container_k).1,
     Returned (SetResponse ZBADVERSION Stat0)).
Proof.
  refine (proj1 (X8_guarded_set_uses_guard_up 2 0 3 0 "/k" "v1" "v2" 0 container_k
                   (Node.mk EmptyString false false (Stat.mk 1 1 0 0 0 0 0 0) 0)
                   (set_stat inc_numChildren (set_stat inc_cversion Node0)) _ _ _ _)).
  - vm_compute; reflexivity.
  - vm_compute; reflexivity.
  - reflexivity.
  - discriminate.
Defined.

(** * Further properties: multi-requests *)

Lemma multi_loop_ZOK zxid now container_copy requests :
  forall (container container' : Container) acc responses,
    multi_loop zxid now container_copy requests container acc
    = (container', Returned (MultiResponse ZOK responses)) ->
    exists tail,
      apply_all_ok zxid now requests container = Some (container', tail) /\
      responses = acc ++ tail.
Proof.
  induction requests as [|r rest IH]; intros c c' acc resps H.
  - simpl in H. inversion H; subst. exists []. by rewrite app_nil_r.
  - cbn [multi_loop] in H. cbn [apply_all_ok].
    destruct (process zxid now r c) as [c1 [cur|e]]; [|discriminate].
    destruct (bool_decide (error cur ≠ ZOK)) eqn:Hb.
    + apply bool_decide_eq_true in Hb. inversion H; subst. by destruct Hb.
    + apply bool_decide_eq_false in Hb.
      assert (Hok : error cur = ZOK) by (destruct (decide (error cur = ZOK)); tauto).
      rewrite (bool_decide_eq_true_2 _ Hok).
      destruct (IH _ _ _ _ H) as (tail & Htail & Hresps).
      rewrite Htail. exists (cur :: tail). split; [reflexivity|].
      by rewrite Hresps, <- app_assoc.
Qed.

(** X9. A multi-request answers ZOK exactly when each of its sub-requests,
    applied in order to the container the previous ones left, answers ZOK;
    the container it leaves is then the one the last sub-request left, and
    its response carries all the sub-responses in order. *)
Theorem X9_multi_commits_iff_all_ok zxid now requests
    (container container' : Container) responses :
  process zxid now (MultiRequest requests) container
  = (container', Returned (MultiResponse ZOK responses))
  <-> apply_all_ok zxid now requests container = Some (container', responses).
Proof.
  rewrite process_Multi. split.
  - intros H. destruct (multi_loop_ZOK _ _ _ _ _ _ _ _ H) as (tail & Ht & ->).
    exact Ht.
  - intros H.
    pose proof (multi_loop_app zxid now container requests [] _ _ _ [] H) as Hl.
    rewrite app_nil_r in Hl. exact Hl.
Qed.

Lemma X9_multi_commits_iff_all_ok_witness :
  process 1 0 (MultiRequest [CreateRequest "/a" EmptyString false false]) container_root
  = (container_a, Returned (MultiResponse ZOK [CreateResponse ZOK "/a"])).
Proof.
  refine (proj2 (X9_multi_commits_iff_all_ok 1 0 _ container_root container_a _) _).
  vm_compute; reflexivity.
Defined.

(** * Further properties: what requests without a remove preserve *)

Lemma keeps_nodes_refl (c : Container) : keeps_nodes c c.
Proof. intros k n H. exists n. auto. Qed.

Lemma keeps_nodes_trans (c1 c2 c3 : Container) :
  keeps_nodes c1 c2 -> keeps_nodes c2 c3 -> keeps_nodes c1 c3.
Proof.
  intros H12 H23 k n H.
  destruct (H12 k n H) as (n2 & Hn2 & Ha & Hb & Hc & Hd).
  destruct (H23 k n2 Hn2) as (n3 & Hn3 & Ha' & Hb' & Hc' & Hd').
  exists n3. repeat split; congruence.
Qed.

Lemma keeps_nodes_alter (f : Node -> Node) path (c : Container) :
  (forall n,
      Stat.czxid (Node.stat (f n)) = Stat.czxid (Node.stat n) /\
      Stat.ctime (Node.stat (f n)) = Stat.ctime (Node.stat n) /\
      Node.is_ephemeral (f n) = Node.is_ephemeral n /\
      Node.is_sequental (f n) = Node.is_sequental n) ->
  keeps_nodes c (alter f path c).
Proof.
  intros Hf k n H. destruct (decide (k = path)) as [->|Hne].
  - exists (f n). rewrite lookup_alter_eq, H. split; [reflexivity|]. apply Hf.
  - exists n. rewrite lookup_alter_ne by congruence. auto.
Qed.

Lemma keeps_nodes_emplace path node (c : Container) :
  keeps_nodes c (emplace path node c).
Proof.
  intros k n H. exists n. split; [|auto].
  by apply emplace_lookup_other.
Qed.

Lemma keeps_nodes_multi_loop zxid now container_copy requests :
  Forall (fun r => removes r = false ->
                   forall c : Container, keeps_nodes c (process zxid now r c).1)
         requests ->
  existsb removes requests = false ->
  forall (c : Container) acc,
    keeps_nodes container_copy c ->
    keeps_nodes container_copy
                (multi_loop zxid now container_copy requests c acc).1.
Proof.
  induction 1 as [|r rest Hr _ IH]; intros Hnone c acc Hc; [exact Hc|].
  simpl in Hnone. apply orb_false_iff in Hnone as [Hr0 Hrest].
  cbn [multi_loop]. specialize (Hr Hr0 c).
  destruct (process zxid now r c) as [c1 [cur|e]]; [|apply keeps_nodes_refl].
  destruct (bool_decide (error cur ≠ ZOK)); [apply keeps_nodes_refl|].
  apply IH; [exact Hrest|]. eapply keeps_nodes_trans; eauto.
Qed.

(** X10. A request that neither is nor contains a remove never takes a node
    away and never changes what identifies one: whatever the outcome
    (success, error or exception), every node present before the call is
    present after it under the same path, with the [czxid], [ctime] and
    flags it was created with. *)
Theorem X10_no_remove_keeps_nodes zxid now request
    (Hnone : removes request = false) :
  forall container : Container,
    keeps_nodes container (process zxid now request container).1.
Proof.
  revert Hnone.
  induction request as [p d e s|p v|p|p|p d v|p|p v|requests IH]
    using Request_nested_ind; intros Hnone c; try discriminate.
  - rewrite process_Create_eq. unfold processCreate.
    destruct (c !! p); [apply keeps_nodes_refl|].
    destruct (c !! parentPath p) as [it|]; [|apply keeps_nodes_refl].
    destruct (Node.is_ephemeral it); [apply keeps_nodes_refl|].
    destruct s; cbn [fst];
      repeat (eapply keeps_nodes_trans;
              [|apply keeps_nodes_alter; intros n; auto]);
      try (eapply keeps_nodes_trans; [|apply keeps_nodes_emplace]);
      try (apply keeps_nodes_alter; intros n; auto);
      apply keeps_nodes_refl.
  - apply (eq_ind_r (keeps_nodes c) (keeps_nodes_refl c)).
    by apply process_read_fst.
  - apply (eq_ind_r (keeps_nodes c) (keeps_nodes_refl c)).
    by apply process_read_fst.
  - cbn [process]. unfold processSet.
    destruct (c !! p) as [it|]; [|apply keeps_nodes_refl].
    destruct (_ || _); [|apply keeps_nodes_refl].
    assert (H1 : keeps_nodes c (alter (set_node zxid now d) p c))
      by (apply keeps_nodes_alter; intros n; auto).
    destruct (alter _ p c !! parentPath p); [|exact H1].
    cbn [fst]. eapply keeps_nodes_trans; [exact H1|].
    apply keeps_nodes_alter; intros n; auto.
  - apply (eq_ind_r (keeps_nodes c) (keeps_nodes_refl c)).
    by apply process_read_fst.
  - apply (eq_ind_r (keeps_nodes c) (keeps_nodes_refl c)).
    by apply process_read_fst.
  - rewrite process_Multi.
    apply keeps_nodes_multi_loop; [exact IH | exact Hnone | apply keeps_nodes_refl].
Qed.

Lemma X10_no_remove_keeps_nodes_witness :
  keeps_nodes container_k
    (process 2 0 (MultiRequest [SetRequest "/k" "v" (-1);
                                CreateRequest "/k/x" EmptyString false true])
             container_k).1.
Proof.
  refine (X10_no_remove_keeps_nodes 2 0 _ _ container_k). reflexivity.
Defined.

(** * Further properties: watch delivery and the mutator *)






(** What the mutator does with a request whose [process] returned. *)
Lemma processRequest_Returned now info st container' response :
  process (wrap_int64 (zxid st + 1)) now
          (addRootPath (root_path st) (RequestInfo.request info)) (container st)
  = (container', Returned response) ->
  let request := addRootPath (root_path st) (RequestInfo.request info) in
  let registries := register_watch info (watches st) (list_watches st) in
  let delivered :=
    if bool_decide (error response = ZOK)
    then processWatches request registries.1 registries.2 (log st)
    else (registries.1, registries.2, log st) in
  processRequest now info st
  = mkTestKeeper (root_path st) (queue_capacity st) container'
      (wrap_int64 (zxid st + 1)) delivered.1.1 delivered.1.2
      (requests_queue st) (expired st)
      match RequestInfo.callback info with
      | Some f => invoke (ResponseCall f (removeRootPath (root_path st) response))
                         delivered.1.1 delivered.1.2 delivered.2
      | None => delivered.2
      end.
Proof.
  intros Hp. unfold processRequest.
  destruct (register_watch info (watches st) (list_watches st)) as [w lw].
  rewrite Hp. simpl.
  by destruct (if bool_decide (error response = ZOK) then _ else _)
    as [[w' lw'] log'].
Qed.

Lemma fired_completion w (callback : ResponseCallback) response
    (a b : Watches) log :
  fired w match callback with
          | Some f => invoke (ResponseCall f response) a b log
          | None => log
          end = fired w log.
Proof.
  destruct callback; [|reflexivity].
  rewrite fired_invoke. unfold watch_calls. simpl. lia.
Qed.



(** X13. A request whose [process] answers with an error fires no watch:
    the mutator leaves the container and both registries as they were
    (apart from registering the watch of the envelope itself), and the only
    call it makes is the completion callback. *)
Theorem X13_failed_request_fires_no_watch now info st container' response
    (Hrun : process (wrap_int64 (zxid st + 1)) now
                    (addRootPath (root_path st) (RequestInfo.request info))
                    (container st)
            = (container', Returned response))
    (Herror : error response <> ZOK) :
  let registries := register_watch info (watches st) (list_watches st) in
  let st' := processRequest now info st in
  container st' = container st /\
  watches st' = registries.1 /\
  list_watches st' = registries.2 /\
  (forall w, fired w (log st') = fired w (log st)) /\
  exists completion,
    map call (log st') = map call (log st) ++ completion /\
    completion
    = match RequestInfo.callback info with
      | Some f => [ResponseCall f (removeRootPath (root_path st) response)]
      | None => []
      end.
Proof.
  intros registries st'. subst st'.
  rewrite (processRequest_Returned now info st container' response Hrun).
  fold registries.
  rewrite bool_decide_eq_false_2 by done.
  cbn [container watches list_watches log fst snd].
  split; [by eapply process_error_container|].
  split; [reflexivity|]. split; [reflexivity|].
  split; [intros w; apply fired_completion|].
  eexists. split; [|reflexivity].
  destruct (RequestInfo.callback info); simpl.
  - unfold invoke. by rewrite map_app.
  - by rewrite app_nil_r.
Qed.

Lemma X13_failed_request_fires_no_watch_witness :
  watches (processRequest 0 (RequestInfo.mk (SetRequest "/k" "v" (-1)) (Some 1%nat) None)
                          (mkTestKeeper EmptyString 1 container_root 0 watches_k ∅
                                        [] false []))
  = watches_k.
Proof.
  refine (proj1 (proj2
            (X13_failed_request_fires_no_watch 0
               (RequestInfo.mk (SetRequest "/k" "v" (-1)) (Some 1%nat) None)
               (mkTestKeeper EmptyString 1 container_root 0 watches_k ∅ [] false [])
               container_root (SetResponse ZNONODE Stat0) _ _))).
  - vm_compute; reflexivity.
  - discriminate.
Defined.

(** * Further properties: the session *)

Lemma step_expired st a : expired st = true -> step st a = st.
Proof.
  intros H. destruct a as [info|now|]; simpl.
  - by rewrite pushRequest_expired.
  - unfold processingThread_step. by rewrite H.
  - by apply finalize_expired.
Qed.

(** X14. Expiry is final: on an expired session a submission (which is
    rejected), an iteration of the mutator and a further [finalize] all
    leave every part of the session as it is, so after any history the
    container, the registries, the queue and the log of callback
    invocations are those of the moment of expiry. *)
Theorem X14_expired_session_is_frozen st (Hexpired : expired st = true) :
  (forall a, step st a = st) /\
  (forall actions, run actions st = st).
Proof.
  split; [intros a; by apply step_expired|].
  induction actions as [|a actions IH]; [reflexivity|].
  change (run (a :: actions) st) with (run actions (step st a)).
  by rewrite step_expired.
Qed.

Lemma X14_expired_session_is_frozen_witness :
  run [Mutate 0; Finalize] (finalize (TestKeeper_new EmptyString 1))
  = finalize (TestKeeper_new EmptyString 1).
Proof.
  refine (proj2 (X14_expired_session_is_frozen
                   (finalize (TestKeeper_new EmptyString 1)) _) _).
  reflexivity.
Defined.



Lemma finalize_container_zxid st :
  container (finalize st) = container st /\ zxid (finalize st) = zxid st.
Proof. unfold finalize. by destruct (expired st). Qed.

Lemma processRequest_zxid now info st :
  zxid (processRequest now info st) = wrap_int64 (zxid st + 1).
Proof.
  unfold processRequest.
  destruct (register_watch info (watches st) (list_watches st)) as [a b].
  destruct (process _ now _ (container st)) as [c [response|e]].
  - by destruct (if bool_decide (error response = ZOK) then _ else _)
      as [[a' b'] log'].
  - match goal with
    | |- context [finalize ?s] => by destruct (finalize_container_zxid s) as [_ ->]
    end.
Qed.

(** X16. Only the mutator touches the container and the transaction id: a
    submission and a [finalize] leave both as they are, and an iteration of
    the mutator that finds an envelope in the queue of an open session
    advances the transaction id by exactly one (64-bit), whether the request
    succeeds, fails or throws; with an empty queue it changes nothing. *)
Theorem X16_one_zxid_per_dequeued_envelope st :
  (forall info,
      container (step st (Submit info)) = container st /\
      zxid (step st (Submit info)) = zxid st) /\
  (container (step st Finalize) = container st /\
   zxid (step st Finalize) = zxid st) /\
  (forall now,
      requests_queue st = [] -> step st (Mutate now) = st) /\
  (forall now,
      expired st = false -> requests_queue st <> [] ->
      zxid (step st (Mutate now)) = wrap_int64 (zxid st + 1)).
Proof.
  split; [|split; [|split]].
  - intros info. simpl. unfold pushRequest.
    pose proof (finalize_container_zxid st) as [Hc Hz].
    destruct (expired st); simpl; [auto|].
    destruct (length (requests_queue st) <? queue_capacity st)%nat; simpl; auto.
  - apply finalize_container_zxid.
  - intros now Hq. simpl. unfold processingThread_step. rewrite Hq.
    by destruct (expired st).
  - intros now He Hq. simpl. unfold processingThread_step. rewrite He.
    destruct (requests_queue st) as [|info queue]; [done|].
    cbn [expired]. by rewrite processRequest_zxid.
Qed.

Lemma X16_one_zxid_per_dequeued_envelope_witness :
  zxid (step session_busy (Mutate 0)) = wrap_int64 (zxid session_busy + 1).
Proof.
  refine (proj2 (proj2 (proj2 (X16_one_zxid_per_dequeued_envelope session_busy)))
            0 _ _).
  - reflexivity.
  - vm_compute. discriminate.
Defined.



(** * Further properties: listing children *)

Lemma ascii_compare_refl a : Ascii.compare a a = Eq.
Proof. unfold Ascii.compare. apply N.compare_refl. Qed.

Lemma string_compare_le_trans a :
  forall b c,
    String.compare a b <> Gt -> String.compare b c <> Gt ->
    String.compare a c <> Gt.
Proof.
  induction a as [|x a IH]; intros [|y b] [|z c] Hab Hbc; simpl in *;
    try congruence.
  destruct (Ascii.compare x y) eqn:Exy; try congruence;
    destruct (Ascii.compare y z) eqn:Eyz; try congruence.
  - apply Ascii.compare_eq_iff in Exy, Eyz. subst.
    rewrite ascii_compare_refl. by apply (IH b c).
  - apply Ascii.compare_eq_iff in Exy. subst. by rewrite Eyz.
  - apply Ascii.compare_eq_iff in Eyz. subst. by rewrite Exy.
  - unfold Ascii.compare in *.
    apply N.compare_lt_iff in Exy. apply N.compare_lt_iff in Eyz.
    assert (H : (N_of_ascii x ?= N_of_ascii z)%N = Lt)
      by (apply N.compare_lt_iff; eapply N.lt_trans; eauto).
    by rewrite H.
Qed.

Lemma leb_compare s t : String.leb s t = true <-> String.compare s t <> Gt.
Proof. unfold String.leb. destruct (String.compare s t); split; congruence. Qed.

Lemma leb_trans a b c :
  String.leb a b = true -> String.leb b c = true -> String.leb a c = true.
Proof. rewrite !leb_compare. apply string_compare_le_trans. Qed.

Lemma leb_false_total a b : String.leb a b = false -> String.leb b a = true.
Proof. intros H. destruct (String.leb_total a b); congruence. Qed.

(** A string that starts with [p] is not below [p]. *)
Lemma prefix_leb p :
  forall k, String.prefix p k = true -> String.leb p k = true.
Proof.
  induction p as [|a p IH]; intros [|b k] H; try done.
  simpl in H. destruct (ascii_dec a b) as [->|]; [|discriminate].
  apply leb_compare. simpl. rewrite ascii_compare_refl.
  apply leb_compare. by apply IH.
Qed.

(** Strings that start with [p] lie together: what is above [p] and not
    above such a string starts with [p] too. *)
Lemma prefix_between p :
  forall x k,
    String.prefix p k = true ->
    String.leb x p = false -> String.leb x k = true ->
    String.prefix p x = true.
Proof.
  induction p as [|a p IH]; intros x k Hk Hxp Hxk; [by destruct x|].
  destruct k as [|b k]; [discriminate|].
  simpl in Hk. destruct (ascii_dec a b) as [<-|]; [|discriminate].
  destruct x as [|c x]; [discriminate|].
  unfold String.leb in Hxp, Hxk. simpl in Hxp, Hxk.
  destruct (Ascii.compare c a) eqn:Eca; try discriminate.
  apply Ascii.compare_eq_iff in Eca. subst c.
  simpl. destruct (ascii_dec a a); [|done].
  by apply (IH x k).
Qed.

Lemma prefix_app p s : String.prefix p (p +:+ s) = true.
Proof.
  induction p as [|a p IH]; [by destruct s|].
  change (String a p +:+ s) with (String a (p +:+ s)).
  simpl. by destruct (ascii_dec a a).
Qed.

Lemma string_app_assoc a b c : (a +:+ b) +:+ c = a +:+ (b +:+ c).
Proof.
  induction a as [|x a IH]; [reflexivity|].
  exact (f_equal (String x) IH).
Qed.

Lemma insert_sorted_ascending {A} (e : string * A) l :
  ascending (map fst l) -> ascending (map fst (insert_sorted e l)).
Proof.
  induction l as [|x l IH]; intros Hl; simpl; [by split|].
  destruct Hl as [Hx Hl].
  destruct (String.leb e.1 x.1) eqn:E; simpl.
  - split; [|by split]. constructor; [exact E|].
    eapply Forall_impl; [exact Hx|]. intros y Hy. simpl in Hy.
    by eapply leb_trans.
  - split; [|by apply IH].
    eapply Permutation_Forall.
    + symmetry. apply Permutation_map. apply insert_sorted_perm.
    + simpl. constructor; [by apply leb_false_total | exact Hx].
Qed.

Lemma ordered_entries_ascending {A} (m : gmap string A) :
  ascending (map fst (ordered_entries m)).
Proof.
  unfold ordered_entries.
  induction (map_to_list m) as [|e l IH]; simpl; [done|].
  by apply insert_sorted_ascending.
Qed.

Lemma ordered_entries_key {A} (m : gmap string A) k :
  k ∈ map fst (ordered_entries m) <-> is_Some (m !! k).
Proof.
  rewrite list_elem_of_In, in_map_iff. split.
  - intros ([k' x] & <- & Hin). exists x.
    by apply ordered_entries_lookup, list_elem_of_In.
  - intros [x Hx]. exists (k, x). split; [reflexivity|].
    by apply list_elem_of_In, ordered_entries_lookup.
Qed.

Lemma drop_while_ascending f l : ascending l -> ascending (drop_while f l).
Proof.
  induction l as [|x l IH]; intros H; simpl; [done|].
  destruct (f x); [apply IH; by destruct H | exact H].
Qed.

Lemma elem_of_drop_while (f : string -> bool) l k :
  k ∈ drop_while f l -> k ∈ l.
Proof.
  induction l as [|x l IH]; simpl; [done|].
  destruct (f x); [|done]. intros H. apply elem_of_cons. right. by apply IH.
Qed.

Lemma elem_of_drop_while_kept (f : string -> bool) l k :
  k ∈ l -> f k = false -> k ∈ drop_while f l.
Proof.
  induction l as [|x l IH]; intros Hk Hf; simpl; [done|].
  destruct (f x) eqn:E; [|done].
  apply elem_of_cons in Hk as [->|Hk]; [congruence|]. by apply IH.
Qed.

(** In an ascending list, what [upper_bound] leaves is above the bound. *)
Lemma drop_while_above p l k :
  ascending l ->
  k ∈ drop_while (fun k => String.leb k p) l -> String.leb k p = false.
Proof.
  induction l as [|x l IH]; intros Hl Hk; simpl in Hk.
  - by apply elem_of_nil in Hk.
  - destruct Hl as [Hx Hl]. destruct (String.leb x p) eqn:E; [by apply IH|].
    apply elem_of_cons in Hk as [->|Hk]; [exact E|].
    destruct (String.leb k p) eqn:Ek; [|reflexivity].
    rewrite Forall_forall in Hx. specialize (Hx k Hk). simpl in Hx.
    pose proof (leb_trans _ _ _ Hx Ek). congruence.
Qed.

Lemma elem_of_take_while (f : string -> bool) l k :
  k ∈ take_while f l -> k ∈ l /\ f k = true.
Proof.
  induction l as [|x l IH]; simpl; intros H.
  - by apply elem_of_nil in H.
  - destruct (f x) eqn:E; [|by apply elem_of_nil in H].
    apply elem_of_cons in H as [->|H].
    + split; [apply elem_of_cons; by left | exact E].
    + destruct (IH H). split; [apply elem_of_cons; by right | done].
Qed.

Lemma elem_of_take_while_reached (f : string -> bool) l k :
  ascending l ->
  k ∈ l -> f k = true ->
  (forall x, x ∈ l -> String.leb x k = true -> f x = true) ->
  k ∈ take_while f l.
Proof.
  induction l as [|x l IH]; intros Hl Hk Hf Hbelow; simpl.
  - by apply elem_of_nil in Hk.
  - destruct Hl as [Hx Hl].
    apply elem_of_cons in Hk as [->|Hk].
    + rewrite Hf. apply elem_of_cons. by left.
    + rewrite Forall_forall in Hx.
      rewrite (Hbelow x (proj2 (elem_of_cons _ _ _) (or_introl eq_refl)) (Hx k Hk)).
      apply elem_of_cons. right. apply IH; try done.
      intros y Hy. apply Hbelow. apply elem_of_cons. by right.
Qed.

(** The keys the loop of a list request visits: exactly the keys of the
    container that start with the prefix, except the prefix itself. *)
Lemma list_walk_spec (container : Container) p k :
  k ∈ take_while (fun k => startsWith k p)
        (drop_while (fun k => String.leb k p) (map fst (ordered_entries container)))
  <-> is_Some (container !! k) /\ startsWith k p = true /\ k <> p.
Proof.
  pose proof (ordered_entries_ascending container) as Hasc.
  split.
  - intros H. apply elem_of_take_while in H as [Hd Hs].
    pose proof (drop_while_above _ _ _ Hasc Hd) as Habove.
    apply elem_of_drop_while in Hd.
    split; [by apply ordered_entries_key|]. split; [exact Hs|].
    intros ->. unfold String.leb in Habove. 
    assert (Hrefl : String.compare p p <> Gt).
    { apply leb_compare. apply prefix_leb. clear. induction p as [|a p IH]; simpl; [done|].
      by destruct (ascii_dec a a). }
    by destruct (String.compare p p).
  - intros (Hin & Hs & Hne).
    assert (Habove : String.leb k p = false).
    { destruct (String.leb k p) eqn:E; [|reflexivity].
      destruct Hne. apply String.leb_antisym; [exact E|].
      by apply prefix_leb. }
    apply elem_of_take_while_reached.
    + by apply drop_while_ascending.
    + apply elem_of_drop_while_kept; [by apply ordered_entries_key | exact Habove].
    + exact Hs.
    + intros x Hx Hxk. unfold startsWith.
      eapply prefix_between; [exact Hs | | exact Hxk].
      by eapply drop_while_above.
Qed.

Lemma back_None path : back path = None -> path = EmptyString.
Proof.
  unfold back. intros H. apply last_None in H.
  by destruct path.
Qed.

Lemma processList_names path (container : Container) node c :
  container !! path = Some node ->
  back path = Some c ->
  processList path container
  = (container,
     Returned (ListResponse ZOK (Node.stat node) (list_names path container))).
Proof.
  intros Hn Hb. unfold processList, list_names, list_prefix.
  by rewrite Hn, Hb.
Qed.

Lemma list_names_spec path (container : Container) name :
  name ∈ list_names path container
  <-> exists k,
        is_Some (container !! k) /\ parentPath k = path /\
        startsWith k (list_prefix path) = true /\ k <> list_prefix path /\
        baseName k = name.
Proof.
  unfold list_names. rewrite list_elem_of_In, in_map_iff. split.
  - intros (k & Hname & Hk). apply list_elem_of_In in Hk.
    apply list_elem_of_filter in Hk as [Hparent Hwalk].
    apply list_walk_spec in Hwalk as (Hin & Hs & Hne).
    exists k. auto.
  - intros (k & Hin & Hparent & Hs & Hne & Hname).
    exists k. split; [exact Hname|].
    apply list_elem_of_In, list_elem_of_filter. split; [exact Hparent|].
    by apply list_walk_spec.
Qed.

(** A key whose parent path is [path], other than [path] itself, starts with
    the prefix a list of [path] walks with. *)
Lemma child_startsWith path k c :
  back path = Some c ->
  parentPath k = path -> k <> path ->
  startsWith k (list_prefix path) = true.
Proof.
  intros Hb Hparent Hne. unfold startsWith, list_prefix. rewrite Hb.
  unfold parentPath in Hparent.
  destruct (rfind "/" k) as [p|] eqn:E; [|congruence].
  destruct (rfind_split _ _ _ E) as [Hk _].
  destruct p as [|p].
  - subst path. vm_compute in Hb. inversion Hb; subst c. simpl.
    destruct k as [|a k]; [discriminate|].
    inversion Hk as [[Ha Hrest]]. simpl.
    match goal with |- String.prefix _ ?s = true => by destruct s end.
  - rewrite Hparent in Hk.
    set (rest := substring (S (S p)) (String.length k - S (S p)) k) in Hk.
    clearbody rest. clear Hparent E Hne. subst k.
    destruct (Ascii.eqb c "/"); [apply prefix_app|].
    change (path +:+ String "/" rest) with (path +:+ ("/" +:+ rest)).
    rewrite <- string_app_assoc. apply prefix_app.
Qed.

(** X18. The list of a present, non-empty path answers ZOK with the node's
    own stat and leaves the container alone; a name is in the answer exactly
    when it is the base name of a key of the container whose parent path is
    the listed path and which starts with the walked prefix (the path, with a
    slash appended unless it ends with one) without being that prefix. *)
Theorem X18_list_names zxid now path (container : Container) node
    (Hnode : container !! path = Some node)
    (Hnonempty : path <> EmptyString) :
  exists names,
    process zxid now (ListRequest path) container
    = (container, Returned (ListResponse ZOK (Node.stat node) names)) /\
    forall name,
      name ∈ names
      <-> exists k,
            is_Some (container !! k) /\ parentPath k = path /\
            startsWith k (list_prefix path) = true /\ k <> list_prefix path /\
            baseName k = name.
Proof.
  destruct (back path) as [c|] eqn:Hb; [|by apply back_None in Hb].
  exists (list_names path container). split.
  - cbn [process]. by eapply processList_names.
  - apply list_names_spec.
Qed.

Lemma X18_list_names_witness :
  exists names,
    process 5 0 (ListRequest "/") container_k
    = (container_k,
       Returned (ListResponse ZOK
                   (Node.stat (set_stat inc_numChildren
                                        (set_stat inc_cversion Node0))) names)) /\
    forall name,
      name ∈ names
      <-> exists k,
            is_Some (container_k !! k) /\ parentPath k = "/" /\
            startsWith k (list_prefix "/") = true /\ k <> list_prefix "/" /\
            baseName k = name.
Proof.
  refine (X18_list_names 5 0 "/" container_k _ _ _).
  - vm_compute; reflexivity.
  - discriminate.
Defined.

(** X19. A list returns the base name of every node whose parent path is
    the listed path, with two exceptions the loop skips: the listed node
    itself (the root is its own parent) and a node whose key is the listed
    path followed by a single slash, which is the walked prefix itself and
    lies at, not after, the upper bound the walk starts from. *)
Theorem X19_list_returns_children zxid now path (container : Container) stat names k
    (Hrun : process zxid now (ListRequest path) container
            = (container, Returned (ListResponse ZOK stat names)))
    (Hkey : is_Some (container !! k))
    (Hchild : parentPath k = path)
    (Hself : k <> path)
    (Hslash : k <> path +:+ "/") :
  baseName k ∈ names.
Proof.
  cbn [process] in Hrun. unfold processList in Hrun.
  destruct (container !! path) as [node|] eqn:Hnode; [|by inversion Hrun].
  destruct (back path) as [c|] eqn:Hb; [|discriminate].
  pose proof (processList_names path container node c Hnode Hb) as Hp.
  unfold processList in Hp. rewrite Hnode, Hb in Hp. rewrite Hp in Hrun.
  inversion Hrun as [[Hstat Hnames]]. 
  apply list_names_spec. exists k.
  split; [exact Hkey|]. split; [exact Hchild|].
  split; [by eapply child_startsWith|]. split; [|reflexivity].
  unfold list_prefix. rewrite Hb. by destruct (Ascii.eqb c "/").
Qed.

Lemma X19_list_returns_children_witness :
  baseName "/a/x" ∈ list_names "/a" container_slashed.
Proof.
  refine (X19_list_returns_children 5 0 "/a" container_slashed
            (Stat.mk 1 1 0 0 0 2 2 0) (list_names "/a" container_slashed) "/a/x"
            _ _ _ _ _).
  - vm_compute; reflexivity.
  - vm_compute. eauto.
  - reflexivity.
  - discriminate.
  - discriminate.
Defined.

(** * Further properties: counters *)

Section Persists.

Variable R : Node -> Node -> Prop.
Hypothesis R_refl : forall n, R n n.
Hypothesis R_trans : forall n1 n2 n3, R n1 n2 -> R n2 n3 -> R n1 n3.
Hypothesis R_inc_seq_num : forall n, R n (inc_seq_num n).
Hypothesis R_inc_cversion : forall n, R n (set_stat inc_cversion n).
Hypothesis R_inc_numChildren : forall n, R n (set_stat inc_numChildren n).
Hypothesis R_set_node : forall zxid now data n, R n (set_node zxid now data n).

Lemma persists_refl (c : Container) : persists R c c.
Proof. intros k n H. eauto. Qed.

Lemma persists_trans (c1 c2 c3 : Container) :
  persists R c1 c2 -> persists R c2 c3 -> persists R c1 c3.
Proof.
  intros H12 H23 k n H.
  destruct (H12 k n H) as (n2 & Hn2 & Hr).
  destruct (H23 k n2 Hn2) as (n3 & Hn3 & Hr').
  eauto.
Qed.

Lemma persists_alter (f : Node -> Node) path (c : Container) :
  (forall n, R n (f n)) -> persists R c (alter f path c).
Proof.
  intros Hf k n H. destruct (decide (k = path)) as [->|Hne].
  - exists (f n). by rewrite lookup_alter_eq, H.
  - exists n. by rewrite lookup_alter_ne by congruence.
Qed.

Lemma persists_emplace path node (c : Container) :
  persists R c (emplace path node c).
Proof.
  intros k n H. exists n. split; [by apply emplace_lookup_other | apply R_refl].
Qed.

Lemma persists_multi_loop zxid now container_copy requests :
  Forall (fun r => removes r = false ->
                   forall c : Container, persists R c (process zxid now r c).1)
         requests ->
  existsb removes requests = false ->
  forall (c : Container) acc,
    persists R container_copy c ->
    persists R container_copy (multi_loop zxid now container_copy requests c acc).1.
Proof.
  induction 1 as [|r rest Hr _ IH]; intros Hnone c acc Hc; [exact Hc|].
  simpl in Hnone. apply orb_false_iff in Hnone as [Hr0 Hrest].
  cbn [multi_loop]. specialize (Hr Hr0 c).
  destruct (process zxid now r c) as [c1 [cur|e]]; [|apply persists_refl].
  destruct (bool_decide (error cur ≠ ZOK)); [apply persists_refl|].
  apply IH; [exact Hrest|]. eapply persists_trans; eauto.
Qed.

Lemma persists_process zxid now request :
  removes request = false ->
  forall c : Container, persists R c (process zxid now request c).1.
Proof.
  induction request as [p d e s|p v|p|p|p d v|p|p v|requests IH]
    using Request_nested_ind; intros Hnone c; try discriminate.
  - rewrite process_Create_eq. unfold processCreate.
    destruct (c !! p); [apply persists_refl|].
    destruct (c !! parentPath p) as [it|]; [|apply persists_refl].
    destruct (Node.is_ephemeral it); [apply persists_refl|].
    destruct s; cbn [fst].
    + eapply persists_trans; [|by apply persists_alter].
      eapply persists_trans; [|by apply persists_alter].
      eapply persists_trans; [|apply persists_emplace].
      by apply persists_alter.
    + eapply persists_trans; [|by apply persists_alter].
      eapply persists_trans; [|by apply persists_alter].
      apply persists_emplace.
  - rewrite process_read_fst by done. apply persists_refl.
  - rewrite process_read_fst by done. apply persists_refl.
  - cbn [process]. unfold processSet.
    destruct (c !! p) as [it|]; [|apply persists_refl].
    destruct (_ || _); [|apply persists_refl].
    assert (H1 : persists R c (alter (set_node zxid now d) p c))
      by (by apply persists_alter).
    destruct (alter _ p c !! parentPath p); [|exact H1].
    cbn [fst]. eapply persists_trans; [exact H1|]. by apply persists_alter.
  - rewrite process_read_fst by done. apply persists_refl.
  - rewrite process_read_fst by done. apply persists_refl.
  - rewrite process_Multi.
    apply persists_multi_loop; [exact IH | exact Hnone | apply persists_refl].
Qed.

End Persists.

(** X20. A request that neither is nor contains a remove never lowers a
    counter: whatever its outcome, every node present before the call is
    present after it with a [version], a [cversion] and a [numChildren] at
    least as large as before. *)
Theorem X20_no_remove_counters_grow zxid now request
    (Hnone : removes request = false) :
  forall container : Container,
    persists counters_grow container (process zxid now request container).1.
Proof.
  apply persists_process; try exact Hnone; unfold counters_grow.
  - intros n. lia.
  - intros n1 n2 n3 H12 H23. lia.
  - intros n. simpl. lia.
  - intros n. simpl. lia.
  - intros n. simpl. lia.
  - intros z t d n. simpl. lia.
Qed.

Lemma X20_no_remove_counters_grow_witness :
  persists counters_grow container_k
    (process 2 0 (SetRequest "/k" "v" (-1)) container_k).1.
Proof.
  refine (X20_no_remove_counters_grow 2 0 _ _ container_k). reflexivity.
Defined.

(** * Further properties: remove and check *)

(** X21. A remove that passes its version guard, of a childless node other
    than the root whose parent is present, answers ZOK: the node is gone,
    the parent has one child less and one child-version more, and every
    other entry of the container is as before. *)
Theorem X21_remove_success zxid now path version
    (container : Container) (node parent : Node)
    (Hnode : container !! path = Some node)
    (Hparent : container !! parentPath path = Some parent)
    (Hother : parentPath path <> path)
    (Hversion : version = -1 \/ version = Stat.version (Node.stat node))
    (Hchildless : Stat.numChildren (Node.stat node) = 0) :
  let container' := (process zxid now (RemoveRequest path version) container).1 in
  process zxid now (RemoveRequest path version) container
  = (container', Returned (RemoveResponse ZOK)) /\
  container' !! path = None /\
  container' !! parentPath path
  = Some (set_stat inc_cversion (set_stat dec_numChildren parent)) /\
  (forall k, k <> path -> k <> parentPath path -> container' !! k = container !! k).
Proof.
  intros container'. subst container'. cbn [process]. unfold processRemove.
  rewrite Hnode.
  assert (Hc : bool_decide (version ≠ -1)
               && bool_decide (version ≠ Stat.version (Node.stat node)) = false).
  { destruct Hversion as [Hv|Hv].
    - by rewrite (bool_decide_eq_false_2 (version ≠ -1)) by (intros H; by apply H).
    - rewrite (bool_decide_eq_false_2 (version ≠ Stat.version _))
        by (intros H; by apply H).
      by rewrite andb_false_r. }
  rewrite Hc. rewrite bool_decide_eq_false_2 by (intros H; by apply H).
  rewrite lookup_delete_ne by congruence. rewrite Hparent. cbn [fst].
  split; [reflexivity|]. split; [|split].
  - rewrite !lookup_alter_ne by done. apply lookup_delete_eq.
  - rewrite !lookup_alter_eq. rewrite lookup_delete_ne by congruence.
    by rewrite Hparent.
  - intros k Hk Hkp. rewrite !lookup_alter_ne by congruence.
    by rewrite lookup_delete_ne by congruence.
Qed.

Lemma X21_remove_success_witness :
  (process 3 0 (RemoveRequest "/k" 0) container_k).1 !! "/k" = None.
Proof.
  refine (proj1 (proj2 (X21_remove_success 3 0 "/k" 0 container_k
                          (Node.mk EmptyString false false (Stat.mk 1 1 0 0 0 0 0 0) 0)
                          (set_stat inc_numChildren (set_stat inc_cversion Node0))
                          _ _ _ _ _))).
  - vm_compute; reflexivity.
  - vm_compute; reflexivity.
  - discriminate.
  - right; reflexivity.
  - reflexivity.
Defined.

(** X22. A check answers what a set with the same expected version would
    answer, and changes nothing: on a container where the parent of the
    path is present whenever the path is, the set returns a response with
    the error of the check (ZOK, ZNONODE or ZBADVERSION). *)
Theorem X22_check_predicts_set zxid now path data version (container : Container)
    (Hparent : forall node, container !! path = Some node ->
                            is_Some (container !! parentPath path)) :
  exists e container' stat,
    process zxid now (CheckRequest path version) container
    = (container, Returned (CheckResponse e)) /\
    process zxid now (SetRequest path data version) container
    = (container', Returned (SetResponse e stat)).
Proof.
  cbn [process]. unfold processCheck, processSet.
  destruct (container !! path) as [node|] eqn:Hnode; [|by eexists _, _, _].
  destruct (Hparent node eq_refl) as [parent Hp].
  destruct (decide (version = -1)) as [Hv|Hv];
    [|destruct (decide (version = Stat.version (Node.stat node))) as [Hv'|Hv']].
  - rewrite (bool_decide_eq_false_2 (version ≠ -1)) by (intros H; by apply H).
    rewrite (bool_decide_eq_true_2 (version = -1)) by done. simpl.
    destruct (alter _ path container !! parentPath path) eqn:E; [by eexists _, _, _|].
    exfalso. apply lookup_alter_None in E. congruence.
  - rewrite (bool_decide_eq_false_2 (version ≠ Stat.version _))
      by (intros H; by apply H).
    rewrite (bool_decide_eq_true_2 (version = Stat.version _)) by done.
    rewrite andb_false_r, orb_true_r.
    destruct (alter _ path container !! parentPath path) eqn:E; [by eexists _, _, _|].
    exfalso. apply lookup_alter_None in E. congruence.
  - rewrite !bool_decide_eq_true_2 by done.
    rewrite !bool_decide_eq_false_2 by done. simpl. by eexists _, _, _.
Qed.

Lemma X22_check_predicts_set_witness :
  exists e container' stat,
    process 2 0 (CheckRequest "/k" 3) container_k
    = (container_k, Returned (CheckResponse e)) /\
    process 2 0 (SetRequest "/k" "v" 3) container_k
    = (container', Returned (SetResponse e stat)).
Proof.
  refine (X22_check_predicts_set 2 0 "/k" "v" 3 container_k _).
  intros node _. vm_compute. eauto.
Defined.
